(** * check-published-fixes.js: a shallow embedding and its verification

    The script cross-references the fix records of a site with the
    publication status of each fixed document and reports the documents
    that were published (live or preview) after the fix was executed.

    The data the script handles is JSON as [response.json()] delivers it,
    so values are modelled as JavaScript values: property reads, optional
    chaining, truthiness, strict equality and the [Date] constructor follow
    ECMAScript.  Remote calls are answered by a [World]; exceptions are the
    [Throw] completion; the two result arrays and the trace of status
    checks are threaded as state. *)

From Stdlib Require Import ZArith Strings.Ascii Strings.String.
From Stdlib Require Import Floats.PrimFloat Floats.FloatOps Floats.SpecFloat.
From stdpp Require Import base option strings pretty gmap list.

Set Default Proof Using "Type".
Set Warnings "-register-all".
Local Open Scope Z_scope.

(** ** JavaScript values *)

Module JS.

(** A value is [undefined] or a JSON value; an object is a finite map from
    its own property names to values, a number is an IEEE double. *)
Inductive JSValue : Type :=
| JSUndefined
| JSNull
| JSBool (b : bool)
| JSNumber (x : float)
| JSString (s : string)
| JSArray (elems : list JSValue)
| JSObject (props : gmap string JSValue).

(** An object literal [{k1: v1, ...}]. *)
Definition obj (l : list (string * JSValue)) : JSValue :=
  JSObject (list_to_map l).

(** Completion of an evaluation: a value, or an exception being thrown.
    The handlers of the script only print the message of the error they
    catch, so the thrown value is not kept. *)
Inductive Completion (A : Type) : Type :=
| Normal (a : A)
| Throw.
Arguments Normal {A} a.
Arguments Throw {A}.

#[global] Instance Completion_ret : MRet Completion := @Normal.
#[global] Instance Completion_bind : MBind Completion :=
  fun A B f c => match c with Normal a => f a | Throw => Throw end.
#[global] Instance Completion_fmap : FMap Completion :=
  fun A B f c => match c with Normal a => Normal (f a) | Throw => Throw end.

(** [ToBoolean]: the falsy values are undefined, null, false, zero, NaN
    and the empty string. *)
Definition ToBoolean (v : JSValue) : bool :=
  match v with
  | JSUndefined | JSNull => false
  | JSBool b => b
  | JSNumber x => negb (PrimFloat.is_zero x || PrimFloat.is_nan x)
  | JSString s => negb (String.eqb s "")
  | JSArray _ | JSObject _ => true
  end.

(** [v.k] for the data properties the script reads ([status], [id],
    [executedAt], [changeDetails], [documentPath], [hlxConfig], [rso],
    [owner], [site], [ref], [live], [preview], [lastModified], [url]).
    Reading a property of undefined or null throws a TypeError; an object
    yields its own property or undefined; a boolean, a number, a string or
    an array has none of these properties. *)
Definition get (v : JSValue) (k : string) : Completion JSValue :=
  match v with
  | JSUndefined | JSNull => Throw
  | JSObject props => Normal (default JSUndefined (props !! k))
  | JSBool _ | JSNumber _ | JSString _ | JSArray _ => Normal JSUndefined
  end.

(** [v?.k]: undefined when [v] is undefined or null. *)
Definition get_opt (v : JSValue) (k : string) : Completion JSValue :=
  match v with
  | JSUndefined | JSNull => Normal JSUndefined
  | _ => get v k
  end.

(** [v === 'literal']. *)
Definition strict_eq_string (v : JSValue) (lit : string) : bool :=
  match v with
  | JSString s => String.eqb s lit
  | _ => false
  end.

(** The built-ins of the engine that the script relies on and that
    ECMAScript leaves to the implementation or that are not worth
    re-implementing: [Date.parse] on a string ([None] is NaN, a time value
    is a number of milliseconds since the epoch) and [Number::toString]. *)
Class Runtime : Type := {
  Date_parse : string -> option Z;
  Number_toString : float -> string;
}.

Section Builtins.
Context {rt : Runtime}.

(** [Array.prototype.join] with the separator [","], over element texts. *)
Fixpoint join_comma (parts : list string) : string :=
  match parts with
  | [] => ""
  | [p] => p
  | p :: rest => p +:+ "," +:+ join_comma rest
  end.

Fixpoint sequence {A : Type} (cs : list (Completion A)) : Completion (list A) :=
  match cs with
  | [] => Normal []
  | c :: cs' => x ← c; xs ← sequence cs'; mret (x :: xs)
  end.

(** [ToString], as a template literal applies it.  An array is joined
    (undefined and null elements give the empty text).  An object from
    JSON has only data properties: with an own [toString] property (which
    is not callable) neither [toString] nor [valueOf] gives a primitive
    and the conversion throws a TypeError, otherwise
    [Object.prototype.toString] answers. *)
Fixpoint ToString (v : JSValue) : Completion string :=
  match v with
  | JSUndefined => Normal "undefined"
  | JSNull => Normal "null"
  | JSBool true => Normal "true"
  | JSBool false => Normal "false"
  | JSNumber x => Normal (Number_toString x)
  | JSString s => Normal s
  | JSArray elems =>
      join_comma <$>
        sequence (map (fun e => match e with
                                | JSUndefined | JSNull => Normal ""
                                | _ => ToString e
                                end) elems)
  | JSObject props =>
      match props !! "toString" with
      | Some _ => Throw
      | None => Normal "[object Object]"
      end
  end.

(** A template literal: the texts of the interpolated values, in order,
    between the literal chunks. *)
Fixpoint template (head : string) (parts : list (JSValue * string)) : Completion string :=
  match parts with
  | [] => Normal head
  | (v, chunk) :: parts' =>
      s ← ToString v;
      rest ← template chunk parts';
      mret (head +:+ s +:+ rest)
  end.

(** [s.replace(/^\/+/, '')]: the leading slashes are dropped. *)
Fixpoint strip_leading_slashes (s : string) : string :=
  match s with
  | String "/"%char s' => strip_leading_slashes s'
  | _ => s
  end.

(** The integral part of a double ([None] for NaN and the infinities). *)
Definition float_trunc (x : float) : option Z :=
  match Prim2SF x with
  | S754_zero _ => Some 0
  | S754_finite s m e =>
      let a := if 0 <=? e then Z.pos m * 2 ^ e else Z.pos m / 2 ^ (- e) in
      Some (if s then - a else a)
  | S754_infinity _ | S754_nan => None
  end.

(** [TimeClip]: a time value is at most 8.64e15 ms away from the epoch. *)
Definition TimeClip (t : option Z) : option Z :=
  match t with
  | Some t => if Z.abs t <=? 8640000000000000 then Some t else None
  | None => None
  end.

(** A [Date] object is its time value; [None] is the invalid date (NaN). *)
Record Date : Type := { DateValue : option Z }.

(** [new Date(value)] with one argument: the argument is converted to a
    primitive (an array or an object from JSON becomes its text, with the
    same TypeError as [ToString]); a string is parsed, anything else is
    converted to a number; the result is clipped. *)
Definition Date_new (value : JSValue) : Completion Date :=
  match value with
  | JSUndefined => Normal {| DateValue := None |}
  | JSNull => Normal {| DateValue := Some 0 |}
  | JSBool b => Normal {| DateValue := Some (if b then 1 else 0) |}
  | JSNumber x => Normal {| DateValue := TimeClip (float_trunc x) |}
  | JSString s => Normal {| DateValue := TimeClip (Date_parse s) |}
  | JSArray _ | JSObject _ =>
      s ← ToString value;
      mret {| DateValue := TimeClip (Date_parse s) |}
  end.

(** [d1 > d2] on two dates: the time values are compared as numbers, and
    a comparison with NaN is false. *)
Definition Date_gt (d1 d2 : Date) : bool :=
  match DateValue d1, DateValue d2 with
  | Some t1, Some t2 => t2 <? t1
  | _, _ => false
  end.

End Builtins.
End JS.

(** ** The script *)

Module Script.
Import JS.

(** What a [fetch] followed by [response.json()] can meet: the request
    fails, or a response arrives with its [ok] flag and a body that is
    JSON ([Some v]) or not ([None]). *)
Inductive FetchOutcome : Type :=
| NetworkError
| HttpResponse (ok : bool) (body : option JSValue).

(** The remote services as the script sees them during one run: the
    tracking service answers the two fixed requests, the admin service
    answers the [n]-th status request by its URL. *)
Record World : Type := {
  siteDetailsResponse : FetchOutcome;
  fixesResponse : FetchOutcome;
  statusResponse : nat -> string -> FetchOutcome;
}.

(** The mutable state of [checkPublishedFixes]: the two arrays it pushes
    to, and the document paths [getHelixStatus] was called with so far
    (oldest first). *)
Record State : Type := {
  livePublishedPages : list JSValue;
  previewPublishedPages : list JSValue;
  statusChecks : list JSValue;
}.

Definition initial : State :=
  {| livePublishedPages := []; previewPublishedPages := []; statusChecks := [] |}.

(** Stateful evaluation; the state reached is kept when an exception is
    thrown. *)
Definition M (A : Type) : Type := State -> Completion A * State.

#[global] Instance M_ret : MRet M := fun A a st => (Normal a, st).
#[global] Instance M_bind : MBind M :=
  fun A B f m st =>
    match m st with
    | (Normal a, st') => f a st'
    | (Throw, st') => (Throw, st')
    end.

Definition lift {A : Type} (c : Completion A) : M A := fun st => (c, st).

Definition throw {A : Type} : M A := lift Throw.

Fixpoint for_of {A : Type} (xs : list A) (body : A -> M unit) : M unit :=
  match xs with
  | [] => mret tt
  | x :: xs' => _ ← body x; for_of xs' body
  end.

Fixpoint Array_filter (p : JSValue -> Completion bool) (xs : list JSValue)
  : Completion (list JSValue) :=
  match xs with
  | [] => Normal []
  | x :: xs' =>
      keep ← p x;
      rest ← Array_filter p xs';
      mret (if keep : bool then x :: rest else rest)
  end.

Fixpoint Array_map (f : JSValue -> Completion JSValue) (xs : list JSValue)
  : Completion (list JSValue) :=
  match xs with
  | [] => Normal []
  | x :: xs' => y ← f x; rest ← Array_map f xs'; mret (y :: rest)
  end.

Section Program.
Context {rt : Runtime}.

(** [console.log] of a template literal with the interpolated [values]:
    the console is not part of the state, but the conversions to text take
    place, in order, and may throw. *)
Definition console_log (values : list JSValue) : M unit :=
  lift (_ ← sequence (map ToString values); mret tt).

Definition push_live (entry : JSValue) : M unit :=
  fun st =>
    (Normal tt,
     {| livePublishedPages := livePublishedPages st ++ [entry];
        previewPublishedPages := previewPublishedPages st;
        statusChecks := statusChecks st |}).

Definition push_preview (entry : JSValue) : M unit :=
  fun st =>
    (Normal tt,
     {| livePublishedPages := livePublishedPages st;
        previewPublishedPages := previewPublishedPages st ++ [entry];
        statusChecks := statusChecks st |}).

(** Entering [getHelixStatus]: the call is recorded, and its rank among
    the status checks of the run is returned. *)
Definition enter_status_check (documentPath : JSValue) : M nat :=
  fun st =>
    (Normal (length (statusChecks st)),
     {| livePublishedPages := livePublishedPages st;
        previewPublishedPages := previewPublishedPages st;
        statusChecks := statusChecks st ++ [documentPath] |}).

(** [await fetch(url)], the [response.ok] test and [await response.json()]:
    every failure is an exception. *)
Definition fetch_json (outcome : FetchOutcome) : Completion JSValue :=
  match outcome with
  | NetworkError => Throw
  | HttpResponse false _ => Throw
  | HttpResponse true None => Throw
  | HttpResponse true (Some v) => Normal v
  end.

(** [getSiteDetails] and [getFixedPages] request a fixed URL each; they
    log the error they meet and throw it again. *)
Definition getSiteDetails (w : World) : Completion JSValue :=
  fetch_json (siteDetailsResponse w).

Definition getFixedPages (w : World) : Completion JSValue :=
  fetch_json (fixesResponse w).

(** [documentPath.replace(/^\/+/, '')]: only a string has a [replace]
    method; on any other value the call throws a TypeError. *)
Definition cleanPath (documentPath : JSValue) : Completion string :=
  match documentPath with
  | JSString s => Normal (strip_leading_slashes s)
  | _ => Throw
  end.

Definition adminEndpointUrl (rso : JSValue) (path : string) : Completion string :=
  owner ← get rso "owner";
  site ← get rso "site";
  ref ← get rso "ref";
  template "https://admin.hlx.page/status/"
    [(owner, "/"); (site, "/"); (ref, "/"); (JSString path, "")].

(** [getHelixStatus]: the path and the URL are computed outside the [try]
    block; whatever fails inside it is caught and answered by [null]. *)
Definition getHelixStatus (w : World) (documentPath rso : JSValue) : M JSValue :=
  n ← enter_status_check documentPath;
  path ← lift (cleanPath documentPath);
  url ← lift (adminEndpointUrl rso path);
  match fetch_json (statusResponse w n url) with
  | Normal status => mret status
  | Throw => mret JSNull
  end.

(** [parseDate] and [isDateAfter]. *)
Definition parseDate (dateString : JSValue) : Completion Date :=
  Date_new dateString.

Definition isDateAfter (dateString1 dateString2 : JSValue) : Completion bool :=
  date1 ← parseDate dateString1;
  date2 ← parseDate dateString2;
  mret (Date_gt date1 date2).

(** The three callbacks of step 3:
    [(fix) => fix.status === 'DEPLOYED'], the arrow function that builds
    [{id, executedAt, documentPath}], and [(fix) => fix.documentPath]. *)
Definition status_is_deployed (fix_ : JSValue) : Completion bool :=
  status ← get fix_ "status";
  mret (strict_eq_string status "DEPLOYED").

Definition pick_fields (fix_ : JSValue) : Completion JSValue :=
  id ← get fix_ "id";
  executedAt ← get fix_ "executedAt";
  changeDetails ← get fix_ "changeDetails";
  documentPath ← get_opt changeDetails "documentPath";
  mret (obj [("id", id); ("executedAt", executedAt); ("documentPath", documentPath)]).

Definition has_documentPath (fix_ : JSValue) : Completion bool :=
  documentPath ← get fix_ "documentPath";
  mret (ToBoolean documentPath).

(** Step 3: the DEPLOYED fixes, reduced to [id], [executedAt] and
    [documentPath], that have a document path. *)
Definition deployedFixesOf (fixes : list JSValue) : Completion (list JSValue) :=
  deployed ← Array_filter status_is_deployed fixes;
  projected ← Array_map pick_fields deployed;
  Array_filter has_documentPath projected.

(** The check of one branch ([live] or [preview]) of a status: when its
    [lastModified] is truthy and after [executedAt], an entry is pushed. *)
Definition check_branch (branch lastModifiedKey urlKey : string)
    (push : JSValue -> M unit) (status fix_ : JSValue) : M unit :=
  side ← lift (get status branch);
  lastModified ← lift (get_opt side "lastModified");
  if ToBoolean lastModified then
    executedAt ← lift (get fix_ "executedAt");
    after ← lift (isDateAfter lastModified executedAt);
    if after : bool then
      _ ← console_log [lastModified];
      documentPath ← lift (get fix_ "documentPath");
      url ← lift (get side "url");
      push (obj [("documentPath", documentPath); ("executedAt", executedAt);
                 (lastModifiedKey, lastModified); (urlKey, url)])
    else
      console_log [lastModified]
  else mret tt.

(** The body of the loop of step 4, for one fix: a falsy status is
    skipped ([continue]); the pause of 100 ms that ends an iteration
    changes nothing. *)
Definition check_fix (w : World) (rso fix_ : JSValue) : M unit :=
  documentPath ← lift (get fix_ "documentPath");
  executedAt ← lift (get fix_ "executedAt");
  _ ← console_log [documentPath; executedAt];
  status ← getHelixStatus w documentPath rso;
  if negb (ToBoolean status) then mret tt
  else
    _ ← check_branch "live" "liveLastModified" "liveUrl" push_live status fix_;
    check_branch "preview" "previewLastModified" "previewUrl" push_preview status fix_.

(** The value returned at the end of step 5. *)
Definition results (st : State) : Completion JSValue :=
  livePaths ← Array_map (fun p => get p "documentPath") (livePublishedPages st);
  previewPaths ← Array_map (fun p => get p "documentPath") (previewPublishedPages st);
  mret (obj [("livePublishedPages", JSArray livePaths);
             ("previewPublishedPages", JSArray previewPaths);
             ("details", obj [("live", JSArray (livePublishedPages st));
                              ("preview", JSArray (previewPublishedPages st))])]).

(** The summary of one of the two arrays: for each page its document
    path, its [executedAt], its [lastModified] and its URL are printed. *)
Definition report (lastModifiedKey urlKey : string) (pages : list JSValue) : M unit :=
  for_of pages
    (fun page =>
       documentPath ← lift (get page "documentPath");
       _ ← console_log [documentPath];
       executedAt ← lift (get page "executedAt");
       _ ← console_log [executedAt];
       lastModified ← lift (get page lastModifiedKey);
       _ ← console_log [lastModified];
       url ← lift (get page urlKey);
       console_log [url]).

(** Step 5: both summaries, then the value returned. *)
Definition report_results : M JSValue :=
  fun st =>
    (_ ← report "liveLastModified" "liveUrl" (livePublishedPages st);
     _ ← report "previewLastModified" "previewUrl" (previewPublishedPages st);
     lift (results st)) st.

(** The [try] block of [checkPublishedFixes].  Of [fixes.length] and
    [fixes.filter(...)], one throws a TypeError on anything but an array;
    with no deployed fix the function returns without a value. *)
Definition checkPublishedFixes_try (w : World) : M JSValue :=
  siteDetails ← lift (getSiteDetails w);
  hlxConfig ← lift (get siteDetails "hlxConfig");
  rso ← lift (get_opt hlxConfig "rso");
  if negb (ToBoolean rso) then throw
  else
    owner ← lift (get rso "owner");
    site ← lift (get rso "site");
    ref ← lift (get rso "ref");
    _ ← console_log [owner; site; ref];
    fixes ← lift (getFixedPages w);
    match fixes with
    | JSArray fixes =>
        deployedFixes ← lift (deployedFixesOf fixes);
        if (length deployedFixes =? 0)%nat then mret JSUndefined
        else
          _ ← for_of deployedFixes (check_fix w rso);
          report_results
    | _ => throw
    end.

(** How a run ends: the promise of [checkPublishedFixes] resolves with a
    value, or the [catch] block ends the process with status 1. *)
Inductive Outcome : Type :=
| Resolved (v : JSValue)
| Exited (code : Z).

Definition checkPublishedFixes (w : World) : Outcome * State :=
  match checkPublishedFixes_try w initial with
  | (Normal v, st) => (Resolved v, st)
  | (Throw, st) => (Exited 1, st)
  end.

End Program.
End Script.

(** ** A reference engine

    An engine to run the script on concrete data: [Date.parse] accepts
    the ECMAScript date-time string format ([YYYY], [YYYY-MM],
    [YYYY-MM-DD], optionally followed by [THH:mm], [THH:mm:ss] or
    [THH:mm:ss.sss] and by [Z] or [+HH:mm] / [-HH:mm]) and nothing else,
    and the local time zone is UTC.  Integral numbers print their
    decimal digits, as JavaScript prints them up to 2^53; the examples
    print no other number, and a fractional number prints its integral
    part. *)

Module Engine.
Import JS.

Definition digit (c : ascii) : option Z :=
  let n := Z.of_N (N_of_ascii c) in
  if (48 <=? n) && (n <=? 57) then Some (n - 48) else None.

(** Exactly [k] decimal digits at the head of [s]. *)
Fixpoint digits (k : nat) (acc : Z) (s : string) : option (Z * string) :=
  match k with
  | O => Some (acc, s)
  | S k' =>
      match s with
      | String c s' => d ← digit c; digits k' (10 * acc + d) s'
      | EmptyString => None
      end
  end.

Definition leap (y : Z) : bool :=
  ((y mod 4 =? 0) && negb (y mod 100 =? 0)) || (y mod 400 =? 0).

Definition days_in_month (y m : Z) : Z :=
  if m =? 2 then (if leap y then 29 else 28)
  else if (m =? 4) || (m =? 6) || (m =? 9) || (m =? 11) then 30
  else 31.

(** Days from 1970-01-01 to the civil date [y]-[m]-[d]. *)
Definition days_from_civil (y m d : Z) : Z :=
  let y' := if m <=? 2 then y - 1 else y in
  let era := y' / 400 in
  let yoe := y' - era * 400 in
  let mp := (m + 9) mod 12 in
  let doy := (153 * mp + 2) / 5 + d - 1 in
  let doe := yoe * 365 + yoe / 4 - yoe / 100 + doy in
  era * 146097 + doe - 719468.

Definition make_time (y m d hh mm ss ms offset_min : Z) : option Z :=
  if (1 <=? m) && (m <=? 12) && (1 <=? d) && (d <=? days_in_month y m)
     && ((hh <? 24) || ((hh =? 24) && (mm =? 0) && (ss =? 0) && (ms =? 0)))
     && (mm <? 60) && (ss <? 60)
  then Some (days_from_civil y m d * 86400000
             + hh * 3600000 + mm * 60000 + ss * 1000 + ms
             - offset_min * 60000)
  else None.

(** The time zone designator closing a date-time; none is local time,
    which is UTC here.  The result is the offset in minutes. *)
Definition parse_offset (s : string) : option Z :=
  match s with
  | EmptyString => Some 0
  | String "Z" EmptyString => Some 0
  | String sign s' =>
      if Ascii.eqb sign "+" || Ascii.eqb sign "-" then
        '(hh, s1) ← digits 2 0 s';
        match s1 with
        | String ":" s2 =>
            '(mm, s3) ← digits 2 0 s2;
            match s3 with
            | EmptyString =>
                if (hh <? 24) && (mm <? 60) then
                  Some (if Ascii.eqb sign "-" then - (hh * 60 + mm) else hh * 60 + mm)
                else None
            | _ => None
            end
        | _ => None
        end
      else None
  end.

(** The time of day after the [T]: hours, minutes, then optional seconds
    and milliseconds, then the offset. *)
Definition parse_time (y m d : Z) (s : string) : option Z :=
  '(hh, s1) ← digits 2 0 s;
  match s1 with
  | String ":" s2 =>
      '(mm, s3) ← digits 2 0 s2;
      match s3 with
      | String ":" s4 =>
          '(ss, s5) ← digits 2 0 s4;
          match s5 with
          | String "." s6 =>
              '(ms, s7) ← digits 3 0 s6;
              off ← parse_offset s7; make_time y m d hh mm ss ms off
          | _ => off ← parse_offset s5; make_time y m d hh mm ss 0 off
          end
      | _ => off ← parse_offset s3; make_time y m d hh mm 0 0 off
      end
  | _ => None
  end.

Definition parse_after_day (y m d : Z) (s : string) : option Z :=
  match s with
  | EmptyString => make_time y m d 0 0 0 0 0
  | String "T" s' => parse_time y m d s'
  | _ => None
  end.

Definition iso_parse (s : string) : option Z :=
  '(y, s1) ← digits 4 0 s;
  match s1 with
  | EmptyString => make_time y 1 1 0 0 0 0 0
  | String "-" s2 =>
      '(m, s3) ← digits 2 0 s2;
      match s3 with
      | EmptyString => make_time y m 1 0 0 0 0 0
      | String "-" s4 => '(d, s5) ← digits 2 0 s4; parse_after_day y m d s5
      | _ => None
      end
  | _ => None
  end.

Definition integral_toString (x : float) : string :=
  if PrimFloat.is_nan x then "NaN"
  else match float_trunc x with
       | Some n => pretty n
       | None => if PrimFloat.ltb x PrimFloat.zero then "-Infinity" else "Infinity"
       end.

#[export] Instance engine : Runtime :=
  {| Date_parse := iso_parse; Number_toString := integral_toString |}.

End Engine.

(** ** Vocabulary of the specification *)

Module Spec.
Import JS Script.

(** [v?.k] as a value: reading a property this way never throws. *)
Definition prop (v : JSValue) (k : string) : JSValue :=
  match v with
  | JSObject props => default JSUndefined (props !! k)
  | _ => JSUndefined
  end.

(** A field is present when it is neither undefined nor null. *)
Definition present (v : JSValue) : bool :=
  match v with
  | JSUndefined | JSNull => false
  | _ => true
  end.

(** A scalar: any value but an array or an object. *)
Definition is_primitive (v : JSValue) : bool :=
  match v with
  | JSArray _ | JSObject _ => false
  | _ => true
  end.

(** The type [timestamp | absent] of the data model: a string, or no
    value. *)
Definition timestamp_or_absent (v : JSValue) : bool :=
  match v with
  | JSUndefined | JSNull | JSString _ => true
  | _ => false
  end.

(** The fields of a fix record as the tracking service delivers it. *)
Definition documentPath_of (record : JSValue) : JSValue :=
  prop (prop record "changeDetails") "documentPath".

(** A fetched record qualifies when its status is DEPLOYED and its
    document path passes the filter of step 3. *)
Definition qualifies (record : JSValue) : bool :=
  strict_eq_string (prop record "status") "DEPLOYED"
  && ToBoolean (documentPath_of record).

(** The record of step 3 for a fetched record. *)
Definition extract (record : JSValue) : JSValue :=
  obj [("id", prop record "id"); ("executedAt", prop record "executedAt");
       ("documentPath", documentPath_of record)].

(** The sequence of fix records a run fetches (none when the request
    fails or does not deliver an array). *)
Definition fetched_fixes (w : World) : list JSValue :=
  match getFixedPages w with
  | Normal (JSArray fixes) => fixes
  | _ => []
  end.

(** The two branches of a publication status. *)
Definition lastModified_of (status : JSValue) (branch : string) : JSValue :=
  prop (prop status branch) "lastModified".

Definition url_of (status : JSValue) (branch : string) : JSValue :=
  prop (prop status branch) "url".

(** [isAfter(a, b)] as a truth value. *)
Definition isAfter {rt : Runtime} (a b : JSValue) : bool :=
  match isDateAfter a b with
  | Normal after => after
  | Throw => false
  end.

(** The instant a timestamp string stands for, if it is parseable. *)
Definition instant {rt : Runtime} (timestamp : string) : option Z :=
  TimeClip (Date_parse timestamp).

(** A timestamp string that stands for no instant. *)
Definition unparseable {rt : Runtime} (v : JSValue) : Prop :=
  exists s, v = JSString s /\ instant s = None.

(** The evidence entries for a fix and one branch of a status. *)
Definition live_evidence (documentPath executedAt status : JSValue) : JSValue :=
  obj [("documentPath", documentPath); ("executedAt", executedAt);
       ("liveLastModified", lastModified_of status "live");
       ("liveUrl", url_of status "live")].

Definition preview_evidence (documentPath executedAt status : JSValue) : JSValue :=
  obj [("documentPath", documentPath); ("executedAt", executedAt);
       ("previewLastModified", lastModified_of status "preview");
       ("previewUrl", url_of status "preview")].

(** The status client fails on a network error, on a response that is
    not 2xx, and on a body that is not JSON. *)
Definition status_fetch_failed (outcome : FetchOutcome) : bool :=
  match outcome with
  | NetworkError => true
  | HttpResponse ok body => negb ok || negb (bool_decide (is_Some body))
  end.

(** The status the loop works with for an outcome of the request. *)
Definition status_of (outcome : FetchOutcome) : JSValue :=
  match outcome with
  | HttpResponse true (Some status) => status
  | _ => JSNull
  end.

(** The status [getHelixStatus] answers with at the [n]-th status check
    of a run, when computing the path and the URL does not throw. *)
Definition fetched_status {rt : Runtime} (w : World) (rso documentPath : JSValue) (n : nat)
  : Completion JSValue :=
  path ← cleanPath documentPath;
  url ← adminEndpointUrl rso path;
  mret (status_of (statusResponse w n url)).

(** What one fix may add to an evidence list: nothing, or the one entry
    of a status whose [lastModified] on that branch is after the
    [executedAt] of the fix. *)
Definition contributes {rt : Runtime} (branch : string)
    (evidence : JSValue -> JSValue -> JSValue -> JSValue)
    (fix_ : JSValue) (entries : list JSValue) : Prop :=
  entries = []
  \/ exists status,
       entries = [evidence (prop fix_ "documentPath") (prop fix_ "executedAt") status]
       /\ isDateAfter (lastModified_of status branch) (prop fix_ "executedAt") = Normal true.

(** Steps 1 and 2 up to the routing configuration: the [rso] of the site
    details, which must be truthy, and which is logged. *)
Definition routing {rt : Runtime} (w : World) : Completion JSValue :=
  siteDetails ← getSiteDetails w;
  hlxConfig ← get siteDetails "hlxConfig";
  rso ← get_opt hlxConfig "rso";
  if ToBoolean rso then
    _ ← sequence (map ToString [prop rso "owner"; prop rso "site"; prop rso "ref"]);
    mret rso
  else Throw.

(** The document paths of the entries of an evidence list. *)
Definition paths (entries : list JSValue) : list JSValue :=
  map (fun p => prop p "documentPath") entries.

(** A publication status whose [lastModified] fields are scalars: in the
    data model each is a timestamp string, or the branch is absent. *)
Definition well_typed_status (status : JSValue) : Prop :=
  is_primitive (lastModified_of status "live") = true
  /\ is_primitive (lastModified_of status "preview") = true.

(** Two worlds whose admin services answer every status request with
    well-typed statuses that are available in the one when they are in the
    other. *)
Definition comparable (w1 w2 : World) : Prop :=
  forall (n : nat) (url : string),
    well_typed_status (status_of (statusResponse w1 n url))
    /\ well_typed_status (status_of (statusResponse w2 n url))
    /\ ToBoolean (status_of (statusResponse w1 n url))
       = ToBoolean (status_of (statusResponse w2 n url)).

(** The statuses of two worlds have the same [branch], request by
    request. *)
Definition same_branch (branch : string) (w1 w2 : World) : Prop :=
  forall (n : nat) (url : string),
    prop (status_of (statusResponse w1 n url)) branch
    = prop (status_of (statusResponse w2 n url)) branch.

(** The structured result over two detail lists. *)
Definition structured_result (live preview : list JSValue) : JSValue :=
  obj [("livePublishedPages", JSArray (paths live));
       ("previewPublishedPages", JSArray (paths preview));
       ("details", obj [("live", JSArray live); ("preview", JSArray preview)])].

(** A state grown by entries at the end of its three lists. *)
Definition extend (st : State) (live preview checks : list JSValue) : State :=
  {| livePublishedPages := livePublishedPages st ++ live;
     previewPublishedPages := previewPublishedPages st ++ preview;
     statusChecks := statusChecks st ++ checks |}.

(** Whether a branch with this [lastModified] counts as published after
    [executedAt]: the test of the script, truthiness first. *)
Definition published {rt : Runtime} (lastModified executedAt : JSValue) : Completion bool :=
  if ToBoolean lastModified then isDateAfter lastModified executedAt
  else Normal false.

End Spec.

(** ** Sample data *)

Module Sample.
Import JS Script.

Definition rso : JSValue :=
  obj [("owner", JSString "bamboohr"); ("site", JSString "bamboohr-website");
       ("ref", JSString "main")].

Definition siteDetails : JSValue :=
  obj [("id", JSString "da39921f-9a02-41db-b491-02c98330d956");
       ("hlxConfig", obj [("rso", rso)])].

Definition fix_record (id status executedAt : string) (documentPath : JSValue) : JSValue :=
  obj [("id", JSString id); ("status", JSString status);
       ("executedAt", JSString executedAt);
       ("changeDetails", obj [("documentPath", documentPath)])].

Definition fix1 : JSValue :=
  fix_record "fix-1" "DEPLOYED" "2025-07-11T15:28:23.948Z"
    (JSString "/resources/hr-glossary/form-940").
Definition fix2 : JSValue :=
  fix_record "fix-2" "DEPLOYED" "2025-07-11T15:28:23.948Z"
    (JSString "/resources/hr-glossary/form-941").
Definition fix3 : JSValue :=
  fix_record "fix-3" "DEPLOYED" "2025-07-11T15:28:23.948Z"
    (JSString "/resources/hr-glossary/w-2").
Definition fix_pending : JSValue :=
  fix_record "fix-4" "PENDING" "2025-07-11T15:28:23.948Z"
    (JSString "/resources/hr-glossary/w-4").
Definition fix_pathless : JSValue :=
  obj [("id", JSString "fix-5"); ("status", JSString "DEPLOYED");
       ("executedAt", JSString "2025-07-11T15:28:23.948Z")].

Definition branch (lastModified url : string) : JSValue :=
  obj [("lastModified", JSString lastModified); ("url", JSString url)].

(** Published live and on preview after the fix. *)
Definition status1 : JSValue :=
  obj [("live", branch "2025-07-11T16:30:00.000Z"
                  "https://main--bamboohr-website--bamboohr.aem.live/resources/hr-glossary/form-940");
       ("preview", branch "2025-07-11T10:00:00.000Z"
                     "https://main--bamboohr-website--bamboohr.aem.page/resources/hr-glossary/form-940")].

(** Published on preview only after the fix. *)
Definition status2 : JSValue :=
  obj [("live", branch "2025-07-11T10:00:00.000Z"
                  "https://main--bamboohr-website--bamboohr.aem.live/resources/hr-glossary/form-941");
       ("preview", branch "2025-07-11T16:25:00.000Z"
                     "https://main--bamboohr-website--bamboohr.aem.page/resources/hr-glossary/form-941")].

(** Not published since the fix; there is no live version. *)
Definition status3 : JSValue :=
  obj [("preview", branch "2025-07-01T08:00:00.000Z"
                     "https://main--bamboohr-website--bamboohr.aem.page/resources/hr-glossary/w-2")].

Definition status_url (path : string) : string :=
  "https://admin.hlx.page/status/bamboohr/bamboohr-website/main/" +:+ path.

Definition ok (body : JSValue) : FetchOutcome := HttpResponse true (Some body).

Definition admin (n : nat) (url : string) : FetchOutcome :=
  if String.eqb url (status_url "resources/hr-glossary/form-940") then ok status1
  else if String.eqb url (status_url "resources/hr-glossary/form-941") then ok status2
  else if String.eqb url (status_url "resources/hr-glossary/w-2") then ok status3
  else HttpResponse false None.

(** The end-to-end scenario of the specification, with two records that
    do not qualify in between. *)
Definition world : World :=
  {| siteDetailsResponse := ok siteDetails;
     fixesResponse := ok (JSArray [fix1; fix_pending; fix2; fix_pathless; fix3]);
     statusResponse := admin |}.

(** The same services when the admin service is down for the second
    document. *)
Definition world_outage : World :=
  {| siteDetailsResponse := ok siteDetails;
     fixesResponse := ok (JSArray [fix1; fix2; fix3]);
     statusResponse := fun n url => if (n =? 1)%nat then NetworkError else admin n url |}.

(** The services of [world] after the first document was previewed
    again: only the preview branch of its status differs. *)
Definition status1_previewed : JSValue :=
  obj [("live", branch "2025-07-11T16:30:00.000Z"
                  "https://main--bamboohr-website--bamboohr.aem.live/resources/hr-glossary/form-940");
       ("preview", branch "2025-07-12T09:00:00.000Z"
                     "https://main--bamboohr-website--bamboohr.aem.page/resources/hr-glossary/form-940")].

Definition world_previewed : World :=
  {| siteDetailsResponse := ok siteDetails;
     fixesResponse := ok (JSArray [fix1; fix_pending; fix2; fix_pathless; fix3]);
     statusResponse := fun n url =>
       if String.eqb url (status_url "resources/hr-glossary/form-940")
       then ok status1_previewed else admin n url |}.

(** The services of [world] after the first document went live again:
    only the live branch of its status differs. *)
Definition status1_republished : JSValue :=
  obj [("live", branch "2025-07-12T11:00:00.000Z"
                  "https://main--bamboohr-website--bamboohr.aem.live/resources/hr-glossary/form-940");
       ("preview", branch "2025-07-11T10:00:00.000Z"
                     "https://main--bamboohr-website--bamboohr.aem.page/resources/hr-glossary/form-940")].

Definition world_republished : World :=
  {| siteDetailsResponse := ok siteDetails;
     fixesResponse := ok (JSArray [fix1; fix_pending; fix2; fix_pathless; fix3]);
     statusResponse := fun n url =>
       if String.eqb url (status_url "resources/hr-glossary/form-940")
       then ok status1_republished else admin n url |}.

(** A status whose live [lastModified] is no date. *)
Definition status_garbled : JSValue :=
  obj [("live", branch "yesterday"
                  "https://main--bamboohr-website--bamboohr.aem.live/resources/hr-glossary/form-940");
       ("preview", branch "2025-07-11T16:25:00.000Z"
                     "https://main--bamboohr-website--bamboohr.aem.page/resources/hr-glossary/form-940")].

Definition world_garbled : World :=
  {| siteDetailsResponse := ok siteDetails;
     fixesResponse := ok (JSArray [fix1]);
     statusResponse := fun n url => ok status_garbled |}.

(** The state of a run after the status check of the first document. *)
Definition after_first_check : State :=
  {| livePublishedPages := []; previewPublishedPages := [];
     statusChecks := [JSString "/resources/hr-glossary/form-940"] |}.

(** No fix at all. *)
Definition world_empty : World :=
  {| siteDetailsResponse := ok siteDetails;
     fixesResponse := ok (JSArray []);
     statusResponse := admin |}.

End Sample.

(** ** The script as a whole *)

Module Main.
Import JS Script.

(** The two variables the script reads from [process.env]: each is a
    string, or is not set. *)
Record Env : Type := {
  SPACECAT_API_KEY : option string;
  HELIX_ADMIN_TOKEN : option string;
}.

Definition env_value (v : option string) : JSValue :=
  match v with
  | Some s => JSString s
  | None => JSUndefined
  end.

Section Main.
Context {rt : Runtime}.

(** The module from top to bottom: the two credential checks end the
    process with status 1; then [checkPublishedFixes] runs, and either its
    [catch] block ends the process, or its promise resolves, the [then]
    handler prints the two arrays of a truthy result and the process ends
    with status 0.  The result is the exit status and the final state. *)
Definition script (env : Env) (w : World) : Z * State :=
  if negb (ToBoolean (env_value (SPACECAT_API_KEY env))) then (1, initial)
  else if negb (ToBoolean (env_value (HELIX_ADMIN_TOKEN env))) then (1, initial)
  else
    match checkPublishedFixes w with
    | (Resolved results, st) => (0, st)
    | (Exited code, st) => (code, st)
    end.

End Main.
End Main.

(** ** Vocabulary for whole runs *)

Module Whole.
Import JS Script Spec.



Definition is_string (v : JSValue) : bool :=
  match v with
  | JSString _ => true
  | _ => false
  end.

Definition is_object (v : JSValue) : bool :=
  match v with
  | JSObject _ => true
  | _ => false
  end.

Definition is_array (v : JSValue) : bool :=
  match v with
  | JSArray _ => true
  | _ => false
  end.

(** A fix record of the data model, as far as the loop reads it: a string
    document path and a scalar [executedAt]. *)
Definition typed_record (record : JSValue) : Prop :=
  is_string (documentPath_of record) = true
  /\ is_primitive (prop record "executedAt") = true.

(** An admin service of the data model: in every status it answers with,
    the [lastModified] and the [url] of both branches are scalars. *)
Definition typed_statuses (w : World) : Prop :=
  forall (n : nat) (url : string),
    let status := status_of (statusResponse w n url) in
    is_primitive (lastModified_of status "live") = true
    /\ is_primitive (lastModified_of status "preview") = true
    /\ is_primitive (url_of status "live") = true
    /\ is_primitive (url_of status "preview") = true.

(** A routing configuration of the data model, as far as the script
    reads it: a truthy value whose [owner], [site] and [ref] are scalars
    (strings, or missing). *)
Definition typed_routing (rso : JSValue) : Prop :=
  ToBoolean rso = true
  /\ is_primitive (prop rso "owner") = true
  /\ is_primitive (prop rso "site") = true
  /\ is_primitive (prop rso "ref") = true.

(** An entry of an evidence list all of whose fields can be printed. *)
Definition printable_entry (lastModifiedKey urlKey : string) (entry : JSValue) : Prop :=
  present entry = true
  /\ is_primitive (prop entry "documentPath") = true
  /\ is_primitive (prop entry "executedAt") = true
  /\ is_primitive (prop entry lastModifiedKey) = true
  /\ is_primitive (prop entry urlKey) = true.

(** A credential is set when the variable holds a string that is not
    empty. *)
Definition credential_set (v : option string) : bool :=
  match v with
  | Some s => negb (String.eqb s "")
  | None => false
  end.

Section Whole.
Context {rt : Runtime}.

(** The entries the [n]-th status check of a run adds to an evidence list,
    for the fetched record it is made for. *)
Definition entries_at (branch : string)
    (evidence : JSValue -> JSValue -> JSValue -> JSValue)
    (w : World) (rso : JSValue) (n : nat) (record : JSValue) : list JSValue :=
  match fetched_status w rso (documentPath_of record) n with
  | Normal status =>
      if ToBoolean status
         && ToBoolean (lastModified_of status branch)
         && isAfter (lastModified_of status branch) (prop record "executedAt")
      then [evidence (documentPath_of record) (prop record "executedAt") status]
      else []
  | Throw => []
  end.

(** The entries of the records checked from the [k]-th check on. *)
Definition entries_from (branch : string)
    (evidence : JSValue -> JSValue -> JSValue -> JSValue)
    (w : World) (rso : JSValue) (k : nat) (records : list JSValue) : list JSValue :=
  concat (imap (fun i => entries_at branch evidence w rso (k + i)) records).

(** Whether a [lastModified] is a timestamp string whose instant is after
    the epoch, 1970-01-01T00:00:00Z. *)
Definition after_epoch (lastModified : JSValue) : bool :=
  match lastModified with
  | JSString s =>
      match instant s with
      | Some t => 0 <? t
      | None => false
      end
  | _ => false
  end.

(** Two worlds answer alike the first [bound] status requests. *)
Definition agree_below (bound : nat) (w1 w2 : World) : Prop :=
  forall (n : nat) (url : string),
    (n < bound)%nat -> statusResponse w1 n url = statusResponse w2 n url.

End Whole.
End Whole.

(** ** Sample data for the edge cases *)

Module Cases.
Import JS Script Spec Main Sample.

(** The tracking service cannot be reached. *)
Definition world_site_down : World :=
  {| siteDetailsResponse := NetworkError;
     fixesResponse := ok (JSArray [fix1]);
     statusResponse := admin |}.

(** A site whose routing configuration is an empty object, without
    fixes. *)
Definition world_bare : World :=
  {| siteDetailsResponse := ok (obj [("hlxConfig", obj [("rso", obj [])])]);
     fixesResponse := ok (JSArray []);
     statusResponse := admin |}.

(** A deployed fix whose document path is a list of paths. *)
Definition fix_listed : JSValue :=
  fix_record "fix-6" "DEPLOYED" "2025-07-11T15:28:23.948Z"
    (JSArray [JSString "/resources/hr-glossary/form-940";
              JSString "/resources/hr-glossary/form-941"]).

Definition world_listed : World :=
  {| siteDetailsResponse := ok siteDetails;
     fixesResponse := ok (JSArray [fix1; fix_listed; fix3]);
     statusResponse := admin |}.

(** A deployed fix without [executedAt], and one whose [executedAt] is
    [null], both for the first document of the scenario. *)
Definition fix_undated : JSValue :=
  obj [("id", JSString "fix-7"); ("status", JSString "DEPLOYED");
       ("changeDetails",
        obj [("documentPath", JSString "/resources/hr-glossary/form-940")])].

Definition fix_null_dated : JSValue :=
  obj [("id", JSString "fix-8"); ("status", JSString "DEPLOYED");
       ("executedAt", JSNull);
       ("changeDetails",
        obj [("documentPath", JSString "/resources/hr-glossary/form-940")])].

(** An admin service that answers every request with the text ["OK"]. *)
Definition world_text : World :=
  {| siteDetailsResponse := ok siteDetails;
     fixesResponse := ok (JSArray [fix1]);
     statusResponse := fun n url => ok (JSString "OK") |}.

(** The services of [world], except that the admin service is down from
    the fourth request on. *)
Definition world_later : World :=
  {| siteDetailsResponse := ok siteDetails;
     fixesResponse := ok (JSArray [fix1; fix_pending; fix2; fix_pathless; fix3]);
     statusResponse := fun n url => if (3 <=? n)%nat then NetworkError else admin n url |}.

Definition env_set : Env :=
  {| SPACECAT_API_KEY := Some "spacecat-key"; HELIX_ADMIN_TOKEN := Some "helix-token" |}.

(** The admin token is set to the empty string. *)
Definition env_empty_token : Env :=
  {| SPACECAT_API_KEY := Some "spacecat-key"; HELIX_ADMIN_TOKEN := Some "" |}.

End Cases.

(** ** Verification *)

Import JS Script Spec.

Section Verification.
Context {rt : Runtime}.

(** *** Values and built-ins *)

Lemma get_opt_prop (v : JSValue) (k : string) : get_opt v k = Normal (prop v k).
Proof. by destruct v. Qed.

Lemma get_present (v : JSValue) (k : string) :
  present v = true -> get v k = Normal (prop v k).
Proof. by destruct v. Qed.

Lemma get_absent (v : JSValue) (k : string) :
  present v = false -> get v k = Throw.
Proof. by destruct v. Qed.

Lemma truthy_present (v : JSValue) : ToBoolean v = true -> present v = true.
Proof. by destruct v. Qed.

Lemma get_truthy (v : JSValue) (k : string) :
  ToBoolean v = true -> get v k = Normal (prop v k).
Proof. intros H. by apply get_present, truthy_present. Qed.

Lemma timestamp_primitive (v : JSValue) :
  timestamp_or_absent v = true -> is_primitive v = true.
Proof. by destruct v. Qed.

Lemma ToString_primitive (v : JSValue) :
  is_primitive v = true -> exists s, ToString v = Normal s.
Proof. destruct v as [| |[]| | | |]; simpl; intros H; try done; eauto. Qed.

(** A value that can be printed can be turned into a date: both
    conversions throw in the same cases. *)
Lemma Date_new_of_ToString (v : JSValue) (s : string) :
  ToString v = Normal s -> exists d, Date_new v = Normal d.
Proof.
  intros H. destruct v; try (simpl; eauto; fail).
  - unfold Date_new. rewrite H. simpl. eauto.
  - unfold Date_new. rewrite H. simpl. eauto.
Qed.

Lemma isDateAfter_strings (a b : string) :
  isDateAfter (JSString a) (JSString b)
  = Normal (match instant a, instant b with
            | Some ta, Some tb => tb <? ta
            | _, _ => false
            end).
Proof. reflexivity. Qed.

Lemma isDateAfter_isAfter (a b : JSValue) (sa sb : string) :
  ToString a = Normal sa -> ToString b = Normal sb ->
  isDateAfter a b = Normal (isAfter a b).
Proof.
  intros Ha Hb. unfold isAfter, isDateAfter, parseDate.
  destruct (Date_new_of_ToString _ _ Ha) as [da ->].
  destruct (Date_new_of_ToString _ _ Hb) as [db ->]. done.
Qed.

(** *** The monad *)

Lemma bind_lift {A B : Type} (c : Completion A) (f : A -> M B) (st : State) :
  (lift c ≫= f) st = match c with Normal a => f a st | Throw => (Throw, st) end.
Proof. by destruct c. Qed.

Lemma for_of_cons {A : Type} (x : A) (xs : list A) (body : A -> M unit) (st : State) :
  for_of (x :: xs) body st
  = match body x st with
    | (Normal _, st') => for_of xs body st'
    | (Throw, st') => (Throw, st')
    end.
Proof. reflexivity. Qed.

Lemma for_of_app {A : Type} (xs ys : list A) (body : A -> M unit) (st : State) :
  for_of (xs ++ ys) body st
  = match for_of xs body st with
    | (Normal _, st') => for_of ys body st'
    | (Throw, st') => (Throw, st')
    end.
Proof.
  revert st. induction xs as [|x xs IH]; intros st; [done|].
  rewrite <- app_comm_cons, !for_of_cons.
  destruct (body x st) as [[[]|] st']; [apply IH | done].
Qed.

(** *** The date comparator *)

(** C2: for timestamp strings [a] and [b] that both parse to instants, if
    the instant of [a] is later than the instant of [b] then
    [isDateAfter a b] is true and [isDateAfter b a] is false; and
    [isDateAfter a a] is false for every timestamp string, parseable or
    not.  The comparison is strict, asymmetric and irreflexive. *)
Theorem isDateAfter_strict :
  (forall (a b : string) (ta tb : Z),
     instant a = Some ta -> instant b = Some tb -> tb < ta ->
     isDateAfter (JSString a) (JSString b) = Normal true
     /\ isDateAfter (JSString b) (JSString a) = Normal false)
  /\ (forall a : string, isDateAfter (JSString a) (JSString a) = Normal false).
Proof.
  split.
  - intros a b ta tb Ha Hb Hlt. rewrite !isDateAfter_strings, Ha, Hb.
    split; f_equal; [by apply Z.ltb_lt | apply Z.ltb_ge; lia].
  - intros a. rewrite isDateAfter_strings.
    destruct (instant a); [|done]. f_equal. apply Z.ltb_irrefl.
Qed.

(** *** Step 3: the qualifying fixes *)

Lemma Array_filter_total (p : JSValue -> Completion bool) (q : JSValue -> bool)
    (xs : list JSValue) :
  (forall x, x ∈ xs -> p x = Normal (q x)) ->
  Array_filter p xs = Normal (List.filter q xs).
Proof.
  induction xs as [|x xs IH]; intros H; [done|]. simpl.
  rewrite (H x) by left. rewrite IH by (intros y Hy; apply H; by right).
  simpl. by destruct (q x).
Qed.

Lemma Array_map_total (f : JSValue -> Completion JSValue) (g : JSValue -> JSValue)
    (xs : list JSValue) :
  (forall x, x ∈ xs -> f x = Normal (g x)) ->
  Array_map f xs = Normal (map g xs).
Proof.
  induction xs as [|x xs IH]; intros H; [done|]. simpl.
  rewrite (H x) by left. rewrite IH by (intros y Hy; apply H; by right). done.
Qed.

Lemma status_is_deployed_present (record : JSValue) :
  present record = true ->
  status_is_deployed record = Normal (strict_eq_string (prop record "status") "DEPLOYED").
Proof. intros H. unfold status_is_deployed. by rewrite get_present. Qed.

Lemma pick_fields_present (record : JSValue) :
  present record = true -> pick_fields record = Normal (extract record).
Proof.
  intros H. unfold pick_fields. rewrite !get_present by done. simpl.
  by rewrite get_opt_prop.
Qed.

Lemma prop_extract_documentPath (record : JSValue) :
  prop (extract record) "documentPath" = documentPath_of record.
Proof. reflexivity. Qed.

Lemma prop_extract_status (record : JSValue) :
  prop (extract record) "status" = JSUndefined.
Proof. reflexivity. Qed.

Lemma has_documentPath_extract (record : JSValue) :
  has_documentPath (extract record) = Normal (ToBoolean (documentPath_of record)).
Proof. reflexivity. Qed.

Lemma filter_extract (fixes : list JSValue) :
  List.filter (fun fix_ => ToBoolean (documentPath_of fix_))
    (List.filter (fun fix_ => strict_eq_string (prop fix_ "status") "DEPLOYED") fixes)
  = List.filter qualifies fixes.
Proof.
  induction fixes as [|x xs IH]; [done|]. unfold qualifies in *. simpl.
  destruct (strict_eq_string (prop x "status") "DEPLOYED"); simpl; [|done].
  destruct (ToBoolean (documentPath_of x)); by rewrite IH.
Qed.

Lemma filter_map_extract (q : JSValue -> bool) (xs : list JSValue) :
  List.filter (fun y => ToBoolean (prop y "documentPath")) (map extract xs)
  = map extract (List.filter (fun x => ToBoolean (documentPath_of x)) xs).
Proof.
  induction xs as [|x xs IH]; [done|]. cbn [map List.filter].
  rewrite prop_extract_documentPath.
  destruct (ToBoolean (documentPath_of x)); cbn [map]; by rewrite IH.
Qed.

Lemma forallb_present_elem (xs : list JSValue) (x : JSValue) :
  forallb present xs = true -> x ∈ xs -> present x = true.
Proof.
  intros H Hin. rewrite forallb_forall in H. apply H. by apply list_elem_of_In.
Qed.

Lemma elem_of_List_filter (q : JSValue -> bool) (xs : list JSValue) (x : JSValue) :
  x ∈ List.filter q xs <-> x ∈ xs /\ q x = true.
Proof. rewrite !list_elem_of_In. apply filter_In. Qed.

Lemma Array_filter_absent (xs : list JSValue) :
  forallb present xs = false -> Array_filter status_is_deployed xs = Throw.
Proof.
  induction xs as [|x xs IH]; [done|]. simpl.
  destruct (present x) eqn:Hx; simpl; intros H.
  - rewrite IH by done. by destruct (status_is_deployed x).
  - unfold status_is_deployed. by rewrite get_absent.
Qed.

(** The three passes of step 3 in closed form: the run is aborted by a
    [null] among the fetched records (its [status] cannot be read),
    otherwise the qualifying records are kept, in order, reduced to their
    three fields. *)
Lemma deployedFixesOf_closed (fixes : list JSValue) :
  deployedFixesOf fixes
  = if forallb present fixes
    then Normal (map extract (List.filter qualifies fixes))
    else Throw.
Proof.
  unfold deployedFixesOf. destruct (forallb present fixes) eqn:Hall.
  - rewrite (Array_filter_total _
      (fun fix_ => strict_eq_string (prop fix_ "status") "DEPLOYED")).
    2:{ intros x Hx. apply status_is_deployed_present. by eapply forallb_present_elem. }
    simpl. rewrite (Array_map_total _ extract).
    2:{ intros x [Hx _]%elem_of_List_filter. apply pick_fields_present.
        by eapply forallb_present_elem. }
    simpl.
    rewrite (Array_filter_total _ (fun y => ToBoolean (prop y "documentPath"))).
    2:{ intros y (x & -> & _)%list_elem_of_fmap. apply has_documentPath_extract. }
    by rewrite (filter_map_extract qualifies), filter_extract.
  - rewrite Array_filter_absent; done.
Qed.

Lemma List_filter_idemp (q : JSValue -> bool) (xs : list JSValue) :
  List.filter q (List.filter q xs) = List.filter q xs.
Proof.
  induction xs as [|x xs IH]; [done|]. simpl.
  destruct (q x) eqn:Hq; simpl; by rewrite ?Hq, IH.
Qed.

Lemma List_filter_all (q : JSValue -> bool) (xs : list JSValue) :
  (forall x, x ∈ xs -> q x = true) -> List.filter q xs = xs.
Proof.
  induction xs as [|x xs IH]; intros H; [done|]. simpl.
  rewrite (H x) by left. f_equal. apply IH. intros y Hy. apply H. by right.
Qed.

Lemma List_filter_none (q : JSValue -> bool) (xs : list JSValue) :
  (forall x, x ∈ xs -> q x = false) -> List.filter q xs = [].
Proof.
  induction xs as [|x xs IH]; intros H; [done|]. simpl.
  rewrite (H x) by left. apply IH. intros y Hy. apply H. by right.
Qed.

Lemma Array_filter_deployed_closed (fixes : list JSValue) :
  Array_filter status_is_deployed fixes
  = if forallb present fixes
    then Normal (List.filter
                   (fun fix_ => strict_eq_string (prop fix_ "status") "DEPLOYED") fixes)
    else Throw.
Proof.
  destruct (forallb present fixes) eqn:Hall.
  - apply Array_filter_total. intros x Hx. apply status_is_deployed_present.
    by eapply forallb_present_elem.
  - by apply Array_filter_absent.
Qed.

Lemma forallb_present_filter (q : JSValue -> bool) (xs : list JSValue) :
  forallb present xs = true -> forallb present (List.filter q xs) = true.
Proof.
  rewrite !forallb_forall. intros H x [Hx _]%filter_In. by apply H.
Qed.

Lemma forallb_present_extract (xs : list JSValue) :
  forallb present (map extract xs) = true.
Proof. by induction xs. Qed.

Lemma qualifies_present (record : JSValue) : qualifies record = true -> present record = true.
Proof.
  unfold qualifies. intros [Hs _]%andb_true_iff. by destruct record.
Qed.

Lemma forallb_present_qualifies (fixes : list JSValue) :
  forallb present (List.filter qualifies fixes) = true.
Proof.
  apply forallb_forall. intros x [_ Hq]%filter_In. by apply qualifies_present.
Qed.

(** C5, as the code has it: each of the two filters of step 3 is
    idempotent (keeping the DEPLOYED records of the kept records changes
    nothing, and so does keeping the records with a document path among
    the records of the stage's output), and so is the selection the stage
    makes (on the qualifying records of a list the stage returns what it
    returns on the list).  The stage as a whole is not: the records it
    produces carry [id], [executedAt] and [documentPath] and no [status],
    so applying the whole stage to its own output yields the empty
    list. *)
Theorem qualifying_filters_idempotent (fixes : list JSValue) :
  (Array_filter status_is_deployed fixes ≫= Array_filter status_is_deployed)
  = Array_filter status_is_deployed fixes
  /\ (deployedFixesOf fixes ≫= Array_filter has_documentPath) = deployedFixesOf fixes
  /\ (forall out, deployedFixesOf fixes = Normal out ->
      deployedFixesOf (List.filter qualifies fixes) = Normal out)
  /\ (deployedFixesOf fixes ≫= deployedFixesOf)
     = (deployedFixesOf fixes ≫= fun _ => Normal []).
Proof.
  split; [|split; [|split]].
  - rewrite Array_filter_deployed_closed.
    destruct (forallb present fixes) eqn:Hall; [|done]. simpl.
    rewrite Array_filter_deployed_closed, forallb_present_filter by done.
    by rewrite List_filter_idemp.
  - rewrite deployedFixesOf_closed.
    destruct (forallb present fixes); [|done]. simpl.
    rewrite (Array_filter_total _ (fun y => ToBoolean (prop y "documentPath"))).
    2:{ intros y (x & -> & _)%list_elem_of_fmap. apply has_documentPath_extract. }
    f_equal. apply List_filter_all.
    intros y (x & -> & [_ Hq]%elem_of_List_filter)%list_elem_of_fmap.
    rewrite prop_extract_documentPath. unfold qualifies in Hq.
    by apply andb_true_iff in Hq as [_ ?].
  - intros out. rewrite !deployedFixesOf_closed, forallb_present_qualifies.
    destruct (forallb present fixes); [|done].
    by rewrite List_filter_idemp.
  - rewrite deployedFixesOf_closed.
    destruct (forallb present fixes); [|done]. simpl.
    rewrite deployedFixesOf_closed, forallb_present_extract.
    f_equal. rewrite List_filter_none; [done|].
    intros y (x & -> & _)%list_elem_of_fmap. unfold qualifies.
    by rewrite prop_extract_status.
Qed.

(** *** One iteration of the loop *)

Lemma extend_extend (st : State) (a b c a' b' c' : list JSValue) :
  extend (extend st a b c) a' b' c' = extend st (a ++ a') (b ++ b') (c ++ c').
Proof. unfold extend. simpl. by rewrite <- !app_assoc. Qed.

Lemma bind_M {A B : Type} (m : M A) (f : A -> M B) (st : State) :
  (m ≫= f) st
  = match m st with
    | (Normal a, st') => f a st'
    | (Throw, st') => (Throw, st')
    end.
Proof. reflexivity. Qed.

Lemma ToString_of_Date_new (v : JSValue) (d : Date) :
  Date_new v = Normal d -> exists s, ToString v = Normal s.
Proof.
  destruct v as [| |[]| | | |]; try (simpl; eauto; fail).
  - unfold Date_new. destruct (ToString (JSArray elems)); [eauto|done].
  - unfold Date_new. destruct (ToString (JSObject props)); [eauto|done].
Qed.

Lemma isDateAfter_Normal (a b : JSValue) (after : bool) :
  isDateAfter a b = Normal after ->
  (exists s, ToString a = Normal s) /\ (exists s, ToString b = Normal s).
Proof.
  unfold isDateAfter, parseDate.
  destruct (Date_new a) as [da|] eqn:Ha; [|done].
  destruct (Date_new b) as [db|] eqn:Hb; [|done].
  intros _. split; by eapply ToString_of_Date_new.
Qed.

Lemma console_log_one (v : JSValue) (s : string) (st : State) :
  ToString v = Normal s -> console_log [v] st = (Normal tt, st).
Proof. intros H. unfold console_log, lift. simpl. by rewrite H. Qed.

Lemma truthy_prop_present (v : JSValue) (k : string) :
  ToBoolean (prop v k) = true -> present v = true.
Proof. by destruct v. Qed.

(** The check of one branch in closed form, for any of the two arrays. *)
Lemma check_branch_closed (branch lastModifiedKey urlKey : string)
    (push : JSValue -> M unit) (grow : State -> JSValue -> State)
    (status fix_ : JSValue) (st : State) :
  (forall entry st', push entry st' = (Normal tt, grow st' entry)) ->
  present status = true -> present fix_ = true ->
  check_branch branch lastModifiedKey urlKey push status fix_ st
  = match published (lastModified_of status branch) (prop fix_ "executedAt") with
    | Normal true =>
        (Normal tt,
         grow st (obj [("documentPath", prop fix_ "documentPath");
                       ("executedAt", prop fix_ "executedAt");
                       (lastModifiedKey, lastModified_of status branch);
                       (urlKey, url_of status branch)]))
    | Normal false => (Normal tt, st)
    | Throw => (Throw, st)
    end.
Proof.
  intros Hpush Hs Hf. unfold check_branch, published, lastModified_of, url_of.
  rewrite bind_lift, (get_present status) by done.
  rewrite bind_lift, get_opt_prop.
  destruct (ToBoolean (prop (prop status branch) "lastModified")) eqn:Hlm; [|done].
  rewrite bind_lift, (get_present fix_) by done.
  rewrite bind_lift.
  destruct (isDateAfter _ _) as [[]|] eqn:Hafter; [| |done].
  - apply isDateAfter_Normal in Hafter as [[s Hs'] _].
    rewrite bind_M, (console_log_one _ s) by done.
    rewrite bind_lift, (get_present fix_) by done.
    rewrite bind_lift, (get_present (prop status branch)).
    + apply Hpush.
    + by eapply truthy_prop_present.
  - apply isDateAfter_Normal in Hafter as [[s Hs'] _].
    by rewrite (console_log_one _ s).
Qed.

Lemma check_branch_live (status fix_ : JSValue) (st : State) :
  present status = true -> present fix_ = true ->
  check_branch "live" "liveLastModified" "liveUrl" push_live status fix_ st
  = match published (lastModified_of status "live") (prop fix_ "executedAt") with
    | Normal true =>
        (Normal tt,
         extend st [live_evidence (prop fix_ "documentPath") (prop fix_ "executedAt") status]
           [] [])
    | Normal false => (Normal tt, st)
    | Throw => (Throw, st)
    end.
Proof.
  intros Hs Hf.
  rewrite (check_branch_closed _ _ _ _ (fun st' e => extend st' [e] [] [])); try done.
  intros e [l p c]. unfold push_live, extend. simpl. by rewrite !app_nil_r.
Qed.

Lemma check_branch_preview (status fix_ : JSValue) (st : State) :
  present status = true -> present fix_ = true ->
  check_branch "preview" "previewLastModified" "previewUrl" push_preview status fix_ st
  = match published (lastModified_of status "preview") (prop fix_ "executedAt") with
    | Normal true =>
        (Normal tt,
         extend st []
           [preview_evidence (prop fix_ "documentPath") (prop fix_ "executedAt") status] [])
    | Normal false => (Normal tt, st)
    | Throw => (Throw, st)
    end.
Proof.
  intros Hs Hf.
  rewrite (check_branch_closed _ _ _ _ (fun st' e => extend st' [] [e] [])); try done.
  intros e [l p c]. unfold push_preview, extend. simpl. by rewrite !app_nil_r.
Qed.

(** [getHelixStatus] in closed form: the call is recorded; the path and
    the URL may throw; the answer is the body of a successful response,
    and [null] otherwise. *)
Lemma getHelixStatus_closed (w : World) (documentPath rso : JSValue) (st : State) :
  getHelixStatus w documentPath rso st
  = (fetched_status w rso documentPath (length (statusChecks st)),
     extend st [] [] [documentPath]).
Proof.
  destruct st as [l p c]. unfold getHelixStatus, fetched_status, extend. simpl.
  rewrite bind_M. simpl. rewrite !app_nil_r.
  rewrite bind_lift. destruct (cleanPath documentPath) as [path|]; [|done]. simpl.
  rewrite bind_lift. destruct (adminEndpointUrl rso path) as [url|]; [|done]. simpl.
  by destruct (statusResponse w (length c) url) as [|[] []].
Qed.

Lemma console_log_closed (values : list JSValue) (st : State) :
  console_log values st
  = (match sequence (map ToString values) with
     | Normal _ => Normal tt
     | Throw => Throw
     end, st).
Proof. unfold console_log, lift. by destruct (sequence _). Qed.

(** One iteration of the loop in closed form. *)
Lemma check_fix_closed (w : World) (rso fix_ : JSValue) (st : State) :
  check_fix w rso fix_ st
  = if present fix_ then
      let documentPath := prop fix_ "documentPath" in
      let executedAt := prop fix_ "executedAt" in
      match sequence (map ToString [documentPath; executedAt]) with
      | Throw => (Throw, st)
      | Normal _ =>
          match fetched_status w rso documentPath (length (statusChecks st)) with
          | Throw => (Throw, extend st [] [] [documentPath])
          | Normal status =>
              if ToBoolean status then
                match published (lastModified_of status "live") executedAt with
                | Throw => (Throw, extend st [] [] [documentPath])
                | Normal live =>
                    let entries :=
                      if live then [live_evidence documentPath executedAt status] else [] in
                    match published (lastModified_of status "preview") executedAt with
                    | Throw => (Throw, extend st entries [] [documentPath])
                    | Normal preview =>
                        (Normal tt,
                         extend st entries
                           (if preview
                            then [preview_evidence documentPath executedAt status]
                            else [])
                           [documentPath])
                    end
                end
              else (Normal tt, extend st [] [] [documentPath])
          end
      end
    else (Throw, st).
Proof.
  unfold check_fix. destruct (present fix_) eqn:Hf.
  2:{ by rewrite bind_lift, get_absent. }
  cbv zeta.
  rewrite bind_lift, get_present by done.
  rewrite bind_lift, get_present by done.
  rewrite bind_M, console_log_closed.
  destruct (sequence _) as [texts|]; [|done].
  rewrite bind_M, getHelixStatus_closed.
  destruct (fetched_status _ _ _ _) as [status|]; [|done].
  destruct (ToBoolean status) eqn:Hstatus; [|done]. cbn [negb].
  apply truthy_present in Hstatus.
  rewrite bind_M, check_branch_live by done.
  destruct (published (lastModified_of status "live") _) as [[]|]; [| |done].
  - rewrite check_branch_preview by done.
    destruct (published (lastModified_of status "preview") _) as [[]|];
      rewrite ?extend_extend; simpl; by rewrite ?app_nil_r.
  - rewrite check_branch_preview by done.
    destruct (published (lastModified_of status "preview") _) as [[]|];
      rewrite ?extend_extend; simpl; by rewrite ?app_nil_r.
Qed.

(** *** Records and statuses of the data model *)

Lemma published_typed (lastModified executedAt : JSValue) :
  is_primitive lastModified = true ->
  is_primitive executedAt = true ->
  published lastModified executedAt
  = Normal (ToBoolean lastModified && isAfter lastModified executedAt).
Proof.
  intros Hlm Hea. unfold published.
  destruct (ToBoolean lastModified); [|done]. simpl.
  destruct (ToString_primitive lastModified) as [s Hs]; [done|].
  destruct (ToString_primitive executedAt) as [s' Hs']; [done|].
  by eapply isDateAfter_isAfter.
Qed.

(** On timestamps the truthiness test of the script is the presence
    test of the specification, as far as evidence is concerned: the one
    timestamp that is present and falsy is the empty string, and it is
    after nothing as soon as [Date.parse] rejects it. *)
Lemma truthy_after_present (lastModified executedAt : JSValue) :
  Date_parse "" = None ->
  timestamp_or_absent lastModified = true ->
  ToBoolean lastModified && isAfter lastModified executedAt
  = present lastModified && isAfter lastModified executedAt.
Proof.
  intros Hempty Hlm. destruct lastModified as [| | | |s| |]; try done.
  destruct s as [|c s]; [|done].
  unfold isAfter, isDateAfter, parseDate. simpl. rewrite Hempty. simpl.
  by destruct (Date_new executedAt).
Qed.

Lemma prop_string_present (v : JSValue) (k s : string) :
  prop v k = JSString s -> present v = true.
Proof. by destruct v. Qed.

Lemma fetched_status_ok (w : World) (rso : JSValue) (dp url : string) (n : nat)
    (outcome : FetchOutcome) :
  adminEndpointUrl rso (strip_leading_slashes dp) = Normal url ->
  statusResponse w n url = outcome ->
  fetched_status w rso (JSString dp) n = Normal (status_of outcome).
Proof. intros Hurl <-. unfold fetched_status. simpl. by rewrite Hurl. Qed.

Lemma log_fix_typed (dp : string) (executedAt : JSValue) :
  is_primitive executedAt = true ->
  exists texts, sequence (map ToString [JSString dp; executedAt]) = Normal texts.
Proof.
  intros H. destruct (ToString_primitive executedAt) as [s Hs]; [done|].
  simpl. rewrite Hs. simpl. eauto.
Qed.

(** One iteration on a fix with a string document path whose status was
    fetched, all timestamps being scalars: the two branches are tested
    one after the other and nothing throws. *)
Lemma check_fix_typed (w : World) (rso fix_ status : JSValue) (st : State)
    (dp url : string) :
  prop fix_ "documentPath" = JSString dp ->
  is_primitive (prop fix_ "executedAt") = true ->
  adminEndpointUrl rso (strip_leading_slashes dp) = Normal url ->
  statusResponse w (length (statusChecks st)) url = HttpResponse true (Some status) ->
  ToBoolean status = true ->
  is_primitive (lastModified_of status "live") = true ->
  is_primitive (lastModified_of status "preview") = true ->
  check_fix w rso fix_ st
  = (Normal tt,
     extend st
       (if ToBoolean (lastModified_of status "live")
           && isAfter (lastModified_of status "live") (prop fix_ "executedAt")
        then [live_evidence (JSString dp) (prop fix_ "executedAt") status] else [])
       (if ToBoolean (lastModified_of status "preview")
           && isAfter (lastModified_of status "preview") (prop fix_ "executedAt")
        then [preview_evidence (JSString dp) (prop fix_ "executedAt") status] else [])
       [JSString dp]).
Proof.
  intros Hdp Hea Hurl Hresp Hstatus Hlive Hpreview.
  rewrite check_fix_closed, (prop_string_present _ _ _ Hdp), Hdp. cbv zeta.
  destruct (log_fix_typed dp _ Hea) as [texts ->].
  rewrite (fetched_status_ok _ _ _ _ _ _ Hurl Hresp). simpl status_of.
  rewrite Hstatus, !published_typed by done. done.
Qed.

(** C1: for a qualifying fix record (a string document path, a scalar
    [executedAt]) whose publication status was fetched, with timestamp
    strings or nothing as the [lastModified] of its branches, one
    iteration of the loop appends a live entry exactly when
    [status.live.lastModified] is present and after [executedAt], and a
    preview entry exactly when [status.preview.lastModified] is present
    and after [executedAt]; the entry carries the document path and the
    [executedAt] of the record and the [lastModified] and [url] of the
    branch.  [Date.parse] is assumed to reject the empty string, the one
    present timestamp the script takes for a missing one. *)
Theorem evidence_appended_exactly_when_after
    (w : World) (rso fix_ status : JSValue) (st : State) (dp url : string) :
  Date_parse "" = None ->
  prop fix_ "documentPath" = JSString dp ->
  is_primitive (prop fix_ "executedAt") = true ->
  adminEndpointUrl rso (strip_leading_slashes dp) = Normal url ->
  statusResponse w (length (statusChecks st)) url = HttpResponse true (Some status) ->
  ToBoolean status = true ->
  timestamp_or_absent (lastModified_of status "live") = true ->
  timestamp_or_absent (lastModified_of status "preview") = true ->
  let executedAt := prop fix_ "executedAt" in
  check_fix w rso fix_ st
  = (Normal tt,
     extend st
       (if present (lastModified_of status "live")
           && isAfter (lastModified_of status "live") executedAt
        then [obj [("documentPath", JSString dp); ("executedAt", executedAt);
                   ("liveLastModified", lastModified_of status "live");
                   ("liveUrl", url_of status "live")]]
        else [])
       (if present (lastModified_of status "preview")
           && isAfter (lastModified_of status "preview") executedAt
        then [obj [("documentPath", JSString dp); ("executedAt", executedAt);
                   ("previewLastModified", lastModified_of status "preview");
                   ("previewUrl", url_of status "preview")]]
        else [])
       [JSString dp]).
Proof.
  intros Hempty Hdp Hea Hurl Hresp Hstatus Hlive Hpreview executedAt.
  rewrite (check_fix_typed w rso fix_ status st dp url) by auto using timestamp_primitive.
  by rewrite !(truthy_after_present _ _ Hempty) by done.
Qed.

(** C3: [isDateAfter] is false as soon as one of its two timestamp
    strings is unparseable; and in the loop an unparseable timestamp
    suppresses evidence without failing the run: on a fix with a string
    document path whose status was fetched (all timestamps being
    scalars) the iteration completes normally, with no entry at all when
    [executedAt] is an unparseable string, and no entry for a branch
    whose [lastModified] is an unparseable string. *)
Theorem unparseable_timestamp_suppresses_evidence :
  (forall a b : string,
     instant a = None \/ instant b = None ->
     isDateAfter (JSString a) (JSString b) = Normal false)
  /\ (forall (w : World) (rso fix_ status : JSValue) (st : State) (dp url : string),
        prop fix_ "documentPath" = JSString dp ->
        is_primitive (prop fix_ "executedAt") = true ->
        adminEndpointUrl rso (strip_leading_slashes dp) = Normal url ->
        statusResponse w (length (statusChecks st)) url = HttpResponse true (Some status) ->
        ToBoolean status = true ->
        is_primitive (lastModified_of status "live") = true ->
        is_primitive (lastModified_of status "preview") = true ->
        exists live preview,
          check_fix w rso fix_ st = (Normal tt, extend st live preview [JSString dp])
          /\ (unparseable (prop fix_ "executedAt") -> live = [] /\ preview = [])
          /\ (unparseable (lastModified_of status "live") -> live = [])
          /\ (unparseable (lastModified_of status "preview") -> preview = [])).
Proof.
  assert (Hpure : forall a b : string,
    instant a = None \/ instant b = None ->
    isDateAfter (JSString a) (JSString b) = Normal false).
  { intros a b H. rewrite isDateAfter_strings.
    destruct H as [-> | ->]; [done|]. by destruct (instant a). }
  split; [done|].
  intros w rso fix_ status st dp url Hdp Hea Hurl Hresp Hstatus Hlive Hpreview.
  eexists _, _. split; [by apply (check_fix_typed w rso fix_ status st dp url)|].
  assert (Hl : forall lm s, prop fix_ "executedAt" = JSString s -> instant s = None ->
                 ToBoolean lm && isAfter lm (prop fix_ "executedAt") = false).
  { intros lm s -> Hs. unfold isAfter, isDateAfter, parseDate.
    change (Date_new (JSString s)) with (Normal {| DateValue := instant s |}).
    rewrite Hs. destruct (Date_new lm) as [[[t|]]|]; simpl; apply andb_false_r. }
  assert (Hr : forall lm s, lm = JSString s -> instant s = None ->
                 ToBoolean lm && isAfter lm (prop fix_ "executedAt") = false).
  { intros lm s -> Hs. unfold isAfter, isDateAfter, parseDate.
    change (Date_new (JSString s)) with (Normal {| DateValue := instant s |}).
    rewrite Hs. simpl. destruct (Date_new _); apply andb_false_r. }
  split; [|split].
  - intros (s & Hs & Hnone). by rewrite !(Hl _ s).
  - intros (s & Hs & Hnone). by rewrite (Hr _ s).
  - intros (s & Hs & Hnone). by rewrite (Hr _ s).
Qed.

(** C6: when the status client fails for the document of a qualifying
    fix (network error, response that is not 2xx, or body that is not
    JSON),
    [getHelixStatus] answers [null] instead of throwing, the iteration
    adds no live and no preview entry, and the loop goes on with the next
    fix. *)
Theorem status_failure_skips_document
    (w : World) (rso fix_ : JSValue) (rest : list JSValue) (st : State) (dp url : string) :
  prop fix_ "documentPath" = JSString dp ->
  is_primitive (prop fix_ "executedAt") = true ->
  adminEndpointUrl rso (strip_leading_slashes dp) = Normal url ->
  status_fetch_failed (statusResponse w (length (statusChecks st)) url) = true ->
  getHelixStatus w (JSString dp) rso st = (Normal JSNull, extend st [] [] [JSString dp])
  /\ check_fix w rso fix_ st = (Normal tt, extend st [] [] [JSString dp])
  /\ for_of (fix_ :: rest) (check_fix w rso) st
     = for_of rest (check_fix w rso) (extend st [] [] [JSString dp]).
Proof.
  intros Hdp Hea Hurl Hfail.
  assert (Hstatus : fetched_status w rso (JSString dp) (length (statusChecks st))
                    = Normal JSNull).
  { rewrite (fetched_status_ok _ _ _ url _ _ Hurl eq_refl).
    by destruct (statusResponse w _ url) as [|[] []]. }
  assert (Hfix : check_fix w rso fix_ st = (Normal tt, extend st [] [] [JSString dp])).
  { rewrite check_fix_closed, (prop_string_present _ _ _ Hdp), Hdp. cbv zeta.
    destruct (log_fix_typed dp _ Hea) as [texts ->]. by rewrite Hstatus. }
  split; [|split].
  - by rewrite getHelixStatus_closed, Hstatus.
  - done.
  - by rewrite for_of_cons, Hfix.
Qed.

(** *** The loop *)

Lemma published_true (lastModified executedAt : JSValue) :
  published lastModified executedAt = Normal true ->
  isDateAfter lastModified executedAt = Normal true.
Proof. unfold published. by destruct (ToBoolean lastModified). Qed.

Lemma extend_nil (st : State) : extend st [] [] [] = st.
Proof. destruct st. unfold extend. simpl. by rewrite !app_nil_r. Qed.

(** What one iteration does to the state, whatever the fix, the status
    and the way the iteration completes. *)
Lemma check_fix_shape (w : World) (rso fix_ : JSValue) (st : State) :
  exists c live preview checks,
    check_fix w rso fix_ st = (c, extend st live preview checks)
    /\ contributes "live" live_evidence fix_ live
    /\ contributes "preview" preview_evidence fix_ preview
    /\ (checks = [] \/ checks = [prop fix_ "documentPath"])
    /\ (c = Normal tt -> checks = [prop fix_ "documentPath"]).
Proof.
  rewrite check_fix_closed.
  destruct (present fix_);
    [|exists Throw, [], [], []; rewrite extend_nil; repeat split; first [done|by left]].
  cbv zeta. destruct (sequence _) as [texts|];
    [|exists Throw, [], [], []; rewrite extend_nil; repeat split; first [done|by left]].
  destruct (fetched_status _ _ _ _) as [status|];
    [|eexists Throw, [], [], _; repeat split; first [done|by left|by right]].
  destruct (ToBoolean status);
    [|eexists (Normal tt), [], [], _; repeat split; first [done|by left|by right]].
  destruct (published (lastModified_of status "live") _) as [live|] eqn:Hlive;
    [|eexists Throw, [], [], _; repeat split; first [done|by left|by right]].
  assert (Hl : contributes "live" live_evidence fix_
                 (if live
                  then [live_evidence (prop fix_ "documentPath") (prop fix_ "executedAt") status]
                  else [])).
  { destruct live; [right|by left]. exists status. split; [done|]. by apply published_true. }
  destruct (published (lastModified_of status "preview") _) as [preview|] eqn:Hpreview;
    [|eexists Throw, _, [], _; repeat split; first [done|by left|by right]].
  eexists (Normal tt), _, _, _. repeat split; [done| |by right].
  destruct preview; [right|by left]. exists status. split; [done|]. by apply published_true.
Qed.

Lemma contributes_nil (branch : string) (evidence : JSValue -> JSValue -> JSValue -> JSValue)
    (fixes : list JSValue) :
  Forall2 (contributes branch evidence) fixes (replicate (length fixes) []).
Proof. induction fixes; constructor; [by left|done]. Qed.

Lemma concat_replicate_nil (n : nat) : concat (replicate n (@nil JSValue)) = [].
Proof. by induction n. Qed.

(** The loop from any state: each fix contributes to each list as
    [contributes] says, and the status checks are those of the fixes
    reached, in order (all of them when the loop completes). *)
Lemma for_of_check_fix_shape (w : World) (rso : JSValue) (fixes : list JSValue) (st : State) :
  exists c lives previews checks,
    for_of fixes (check_fix w rso) st
    = (c, extend st (concat lives) (concat previews) checks)
    /\ Forall2 (contributes "live" live_evidence) fixes lives
    /\ Forall2 (contributes "preview" preview_evidence) fixes previews
    /\ checks `prefix_of` map (fun fix_ => prop fix_ "documentPath") fixes
    /\ (c = Normal tt -> checks = map (fun fix_ => prop fix_ "documentPath") fixes).
Proof.
  revert st. induction fixes as [|fix_ fixes IH]; intros st.
  { exists (Normal tt), [], [], []. rewrite extend_nil. by repeat split. }
  rewrite for_of_cons.
  destruct (check_fix_shape w rso fix_ st)
    as (c & live & preview & checks & -> & Hl & Hp & Hc & Hn).
  destruct c as [[]|].
  - rewrite Hn by done.
    destruct (IH (extend st live preview [prop fix_ "documentPath"]))
      as (c' & lives & previews & checks' & -> & Hls & Hps & Hcs & Hns).
    exists c', (live :: lives), (preview :: previews), (prop fix_ "documentPath" :: checks').
    rewrite extend_extend. repeat split; try by constructor.
    + by apply prefix_cons.
    + intros Hc'. cbn [map]. f_equal. by apply Hns.
  - exists Throw, (live :: replicate (length fixes) []),
      (preview :: replicate (length fixes) []), checks.
    cbn [concat]. rewrite !concat_replicate_nil, !app_nil_r.
    repeat split; try (constructor; [done|apply contributes_nil]); [|done].
    destruct Hc as [-> | ->]; [apply prefix_nil|].
    apply prefix_cons, prefix_nil.
Qed.

(** C7: at every iteration of the loop (after the first [k] fixes, for
    every [k]), each fix has contributed at most one entry to the live
    list and at most one to the preview list, and an entry only for a
    status whose [lastModified] on that branch is after the [executedAt]
    of the fix. *)
Theorem at_most_one_entry_per_fix
    (w : World) (rso : JSValue) (fixes : list JSValue) (st : State) (k : nat) :
  let st' := snd (for_of (take k fixes) (check_fix w rso) st) in
  exists lives previews : list (list JSValue),
    Forall2 (contributes "live" live_evidence) (take k fixes) lives
    /\ Forall2 (contributes "preview" preview_evidence) (take k fixes) previews
    /\ Forall (fun entries => (length entries <= 1)%nat) (lives ++ previews)
    /\ livePublishedPages st' = livePublishedPages st ++ concat lives
    /\ previewPublishedPages st' = previewPublishedPages st ++ concat previews.
Proof.
  intros st'. subst st'.
  destruct (for_of_check_fix_shape w rso (take k fixes) st)
    as (c & lives & previews & checks & -> & Hl & Hp & _).
  exists lives, previews. repeat split; try done.
  apply Forall_app. split.
  - clear Hp. induction Hl as [|? ? ? ? [-> | (? & -> & _)]]; constructor; simpl; auto.
  - clear Hl. induction Hp as [|? ? ? ? [-> | (? & -> & _)]]; constructor; simpl; auto.
Qed.

(** *** The run *)

Lemma routing_closed (w : World) (st : State) (k : JSValue -> M JSValue) :
  (siteDetails ← lift (getSiteDetails w);
   hlxConfig ← lift (get siteDetails "hlxConfig");
   rso ← lift (get_opt hlxConfig "rso");
   if negb (ToBoolean rso) then throw
   else
     owner ← lift (get rso "owner");
     site ← lift (get rso "site");
     ref ← lift (get rso "ref");
     _ ← console_log [owner; site; ref];
     k rso) st
  = match routing w with
    | Normal rso => k rso st
    | Throw => (Throw, st)
    end.
Proof.
  unfold routing.
  rewrite bind_lift. destruct (getSiteDetails w) as [siteDetails|]; [|done]. simpl.
  rewrite bind_lift. destruct (get siteDetails "hlxConfig") as [hlxConfig|]; [|done]. simpl.
  rewrite bind_lift, get_opt_prop. simpl.
  destruct (ToBoolean (prop hlxConfig "rso")) eqn:Hrso; [|done]. cbn [negb].
  do 3 (rewrite bind_lift, get_truthy by done; cbv beta iota).
  rewrite bind_M, console_log_closed. simpl.
  destruct (ToString (prop (prop hlxConfig "rso") "owner")); simpl; [|done].
  destruct (ToString (prop (prop hlxConfig "rso") "site")); simpl; [|done].
  by destruct (ToString (prop (prop hlxConfig "rso") "ref")).
Qed.

Lemma console_log_state (values : list JSValue) (st : State) :
  snd (console_log values st) = st.
Proof. by rewrite console_log_closed. Qed.

Lemma report_state (lastModifiedKey urlKey : string) (pages : list JSValue) (st : State) :
  snd (report lastModifiedKey urlKey pages st) = st.
Proof.
  unfold report. induction pages as [|page pages IH]; [done|].
  rewrite for_of_cons.
  match goal with |- snd (match ?body with _ => _ end) = _ =>
    assert (Hbody : snd body = st); [|destruct body as [[[]|] st']; simpl in Hbody; by subst]
  end.
  rewrite bind_lift. destruct (get page "documentPath"); [|done].
  rewrite bind_M, console_log_closed. destruct (sequence _); [|done].
  rewrite bind_lift. destruct (get page "executedAt"); [|done].
  rewrite bind_M, console_log_closed. destruct (sequence _); [|done].
  rewrite bind_lift. destruct (get page lastModifiedKey); [|done].
  rewrite bind_M, console_log_closed. destruct (sequence _); [|done].
  rewrite bind_lift. destruct (get page urlKey); [|done].
  apply console_log_state.
Qed.

Lemma report_results_state (st : State) : snd (report_results st) = st.
Proof.
  unfold report_results. rewrite bind_M.
  pose proof (report_state "liveLastModified" "liveUrl" (livePublishedPages st) st) as H1.
  destruct (report _ _ _ _) as [[[]|] st1]; simpl in H1; subst; [|done].
  rewrite bind_M.
  pose proof (report_state "previewLastModified" "previewUrl" (previewPublishedPages st) st)
    as H2.
  by destruct (report _ _ _ _) as [[[]|] st2]; simpl in H2; subst.
Qed.

Lemma report_results_value (st : State) (v : JSValue) :
  fst (report_results st) = Normal v -> results st = Normal v.
Proof.
  unfold report_results. rewrite bind_M.
  pose proof (report_state "liveLastModified" "liveUrl" (livePublishedPages st) st) as H1.
  destruct (report _ _ _ _) as [[[]|] st1]; simpl in H1; subst; [|done].
  rewrite bind_M.
  pose proof (report_state "previewLastModified" "previewUrl" (previewPublishedPages st) st)
    as H2.
  by destruct (report _ _ _ _) as [[[]|] st2]; simpl in H2; subst.
Qed.

(** The [try] block in closed form. *)
Lemma checkPublishedFixes_try_closed (w : World) :
  checkPublishedFixes_try w initial
  = match routing w with
    | Throw => (Throw, initial)
    | Normal rso =>
        match getFixedPages w with
        | Normal (JSArray fixes) =>
            if forallb present fixes then
              match List.filter qualifies fixes with
              | [] => (Normal JSUndefined, initial)
              | deployed =>
                  match for_of (map extract deployed) (check_fix w rso) initial with
                  | (Normal _, st) => (fst (report_results st), st)
                  | (Throw, st) => (Throw, st)
                  end
              end
            else (Throw, initial)
        | _ => (Throw, initial)
        end
    end.
Proof.
  unfold checkPublishedFixes_try. rewrite routing_closed.
  destruct (routing w) as [rso|]; [|done].
  rewrite bind_lift. destruct (getFixedPages w) as [[| | | | |fixes|]|]; try done.
  rewrite bind_lift, deployedFixesOf_closed.
  destruct (forallb present fixes); [|done].
  destruct (List.filter qualifies fixes) as [|x deployed]; [done|].
  cbn [map length Nat.eqb]. rewrite bind_M.
  destruct (for_of _ _ _) as [[[]|] st]; [|done].
  by rewrite (surjective_pairing (report_results st)), report_results_state.
Qed.

Lemma fetched_fixes_array (w : World) (fixes : list JSValue) :
  getFixedPages w = Normal (JSArray fixes) -> fetched_fixes w = fixes.
Proof. unfold fetched_fixes. by intros ->. Qed.

Lemma paths_extract (records : list JSValue) :
  map (fun fix_ => prop fix_ "documentPath") (map extract records)
  = map documentPath_of records.
Proof. induction records; [done|]. cbn [map]. by rewrite IHrecords. Qed.

(** The final state of a run: the initial state, or the state the loop
    over the qualifying records ends in. *)
Lemma final_state_cases (w : World) :
  snd (checkPublishedFixes w) = initial
  \/ exists rso,
       snd (checkPublishedFixes w)
       = snd (for_of (map extract (List.filter qualifies (fetched_fixes w)))
                (check_fix w rso) initial).
Proof.
  unfold checkPublishedFixes. rewrite checkPublishedFixes_try_closed.
  destruct (routing w) as [rso|]; [|by left].
  destruct (getFixedPages w) as [[| | | | |fixes|]|] eqn:Hfixes; try by left.
  rewrite (fetched_fixes_array _ _ Hfixes).
  destruct (forallb present fixes); [|by left].
  destruct (List.filter qualifies fixes) as [|x deployed]; [by left|].
  right. exists rso.
  destruct (for_of _ _ _) as [[[]|] st]; [|done]. simpl.
  by destruct (fst (report_results st)).
Qed.

Lemma qualifies_spec (record : JSValue) :
  qualifies record = true ->
  prop record "status" = JSString "DEPLOYED"
  /\ ToBoolean (documentPath_of record) = true
  /\ present (documentPath_of record) = true.
Proof.
  unfold qualifies. intros [Hs Hd]%andb_true_iff. repeat split; [|done|by apply truthy_present].
  destruct (prop record "status") as [| | | |s| |]; try done.
  simpl in Hs. by apply String.eqb_eq in Hs as ->.
Qed.

(** C4: the status checks of a run are made for the first qualifying
    records of the fetched sequence, one check per record and in order
    (for all of them when the run completes); each record that reaches
    the status check is a fetched record with status DEPLOYED and a
    present document path.  A record without a document path or with
    another status is therefore never checked, whatever its other
    fields. *)
Theorem status_check_only_if_qualifying (w : World) :
  exists records : list JSValue,
    records `prefix_of` List.filter qualifies (fetched_fixes w)
    /\ statusChecks (snd (checkPublishedFixes w)) = map documentPath_of records
    /\ Forall (fun record =>
                 record ∈ fetched_fixes w
                 /\ prop record "status" = JSString "DEPLOYED"
                 /\ present (documentPath_of record) = true) records
    /\ (forall v, fst (checkPublishedFixes w) = Resolved v ->
        records = List.filter qualifies (fetched_fixes w)).
Proof.
  assert (Hq : forall records,
    records `prefix_of` List.filter qualifies (fetched_fixes w) ->
    Forall (fun record =>
              record ∈ fetched_fixes w
              /\ prop record "status" = JSString "DEPLOYED"
              /\ present (documentPath_of record) = true) records).
  { intros records [rest Hrest]. apply Forall_forall. intros record Hin.
    assert (record ∈ List.filter qualifies (fetched_fixes w)) as
      [Hfetched Hqual]%elem_of_List_filter
      by (rewrite Hrest; apply elem_of_app; by left).
    split; [done|]. by destruct (qualifies_spec _ Hqual) as (? & _ & ?). }
  assert (Hnone : statusChecks (snd (checkPublishedFixes w)) = [] ->
                  (forall v, fst (checkPublishedFixes w) = Resolved v ->
                             List.filter qualifies (fetched_fixes w) = []) ->
                  exists records : list JSValue,
                    records `prefix_of` List.filter qualifies (fetched_fixes w)
                    /\ statusChecks (snd (checkPublishedFixes w)) = map documentPath_of records
                    /\ Forall (fun record =>
                                 record ∈ fetched_fixes w
                                 /\ prop record "status" = JSString "DEPLOYED"
                                 /\ present (documentPath_of record) = true) records
                    /\ (forall v, fst (checkPublishedFixes w) = Resolved v ->
                        records = List.filter qualifies (fetched_fixes w))).
  { intros Hchecks Hres. exists []. split; [apply prefix_nil|]. split; [done|].
    split; [constructor|]. intros v Hv. symmetry. by eapply Hres. }
  unfold checkPublishedFixes in *. rewrite checkPublishedFixes_try_closed in *.
  destruct (routing w) as [rso|]; [|by apply Hnone].
  destruct (getFixedPages w) as [[| | | | |fixes|]|] eqn:Hfixes; try by apply Hnone.
  rewrite (fetched_fixes_array _ _ Hfixes) in *.
  destruct (forallb present fixes); [|by apply Hnone].
  destruct (List.filter qualifies fixes) as [|x deployed] eqn:Hdeployed;
    [by apply Hnone|].
  clear Hnone.
  destruct (for_of_check_fix_shape w rso (map extract (x :: deployed)) initial)
    as (c & lives & previews & checks & -> & _ & _ & Hprefix & Hall).
  rewrite paths_extract in Hprefix, Hall.
  destruct Hprefix as [rest Hrest].
  exists (take (length checks) (x :: deployed)).
  assert (Htake : map documentPath_of (take (length checks) (x :: deployed)) = checks).
  { rewrite <- firstn_map, Hrest. apply take_app_length. }
  split; [apply prefix_take|].
  split.
  { rewrite Htake. destruct c as [[]|]; [|done]. simpl.
    by destruct (fst (report_results _)). }
  split; [apply Hq, prefix_take|].
  intros v Hv. destruct c as [[]|]; [|done].
  rewrite Hall by done. rewrite length_map. apply firstn_all.
Qed.

Lemma contributes_paths (branch : string)
    (evidence : JSValue -> JSValue -> JSValue -> JSValue)
    (fixes : list JSValue) (entries : list (list JSValue)) :
  (forall dp ea status, prop (evidence dp ea status) "documentPath" = dp) ->
  Forall2 (contributes branch evidence) fixes entries ->
  paths (concat entries) `sublist_of` map (fun fix_ => prop fix_ "documentPath") fixes.
Proof.
  intros Hdp H. induction H as [|fix_ es fixes entries [-> | (status & -> & _)] _ IH].
  - constructor.
  - by apply sublist_cons_r; left.
  - cbn [concat app paths map]. rewrite Hdp. by apply sublist_skip.
Qed.

(** C8: in every run, the document paths of the live-evidence list, and
    those of the preview-evidence list, are a subsequence of the document
    paths of the qualifying records in the order they were fetched. *)
Theorem evidence_lists_preserve_order (w : World) :
  let st := snd (checkPublishedFixes w) in
  let qualifying := List.filter qualifies (fetched_fixes w) in
  paths (livePublishedPages st) `sublist_of` map documentPath_of qualifying
  /\ paths (previewPublishedPages st) `sublist_of` map documentPath_of qualifying.
Proof.
  intros st qualifying. subst st qualifying.
  destruct (final_state_cases w) as [-> | [rso ->]].
  { split; apply sublist_nil_l. }
  destruct (for_of_check_fix_shape w rso
              (map extract (List.filter qualifies (fetched_fixes w))) initial)
    as (c & lives & previews & checks & -> & Hl & Hp & _).
  rewrite <- paths_extract. simpl. split.
  - by apply (contributes_paths "live" live_evidence).
  - by apply (contributes_paths "preview" preview_evidence).
Qed.

Lemma contributes_present (branch : string)
    (evidence : JSValue -> JSValue -> JSValue -> JSValue)
    (fixes : list JSValue) (entries : list (list JSValue)) :
  (forall dp ea status, present (evidence dp ea status) = true) ->
  Forall2 (contributes branch evidence) fixes entries ->
  Forall (fun entry => present entry = true) (concat entries).
Proof.
  intros Hev H. induction H as [|fix_ es fixes entries [-> | (status & -> & _)] _ IH].
  - constructor.
  - done.
  - constructor; [apply Hev|done].
Qed.

Lemma results_closed (st : State) :
  Forall (fun entry => present entry = true) (livePublishedPages st) ->
  Forall (fun entry => present entry = true) (previewPublishedPages st) ->
  results st
  = Normal (structured_result (livePublishedPages st) (previewPublishedPages st)).
Proof.
  intros Hl Hp. unfold results.
  rewrite (Array_map_total _ (fun p => prop p "documentPath")).
  2:{ intros x Hx. apply get_present. revert x Hx. by apply list.Forall_forall. }
  simpl.
  rewrite (Array_map_total _ (fun p => prop p "documentPath")).
  2:{ intros x Hx. apply get_present. revert x Hx. by apply list.Forall_forall. }
  done.
Qed.

(** C9, as the code has it: a run that completes normally with at least
    one qualifying fix returns the structured result
    [{livePublishedPages, previewPublishedPages, details: {live, preview}}]
    whose two page lists are the document paths of the two detail lists;
    a run with no qualifying fix also completes normally (it is not an
    error), but returns no value: its result is [undefined]. *)
Theorem structured_result_unless_no_fix (w : World) :
  (forall v : JSValue,
     fst (checkPublishedFixes w) = Resolved v ->
     let st := snd (checkPublishedFixes w) in
     (List.filter qualifies (fetched_fixes w) = [] /\ v = JSUndefined /\ st = initial)
     \/ (List.filter qualifies (fetched_fixes w) <> []
         /\ v = obj [("livePublishedPages", JSArray (paths (livePublishedPages st)));
                     ("previewPublishedPages", JSArray (paths (previewPublishedPages st)));
                     ("details", obj [("live", JSArray (livePublishedPages st));
                                      ("preview", JSArray (previewPublishedPages st))])]))
  /\ (forall (rso : JSValue) (fixes : list JSValue),
        routing w = Normal rso ->
        getFixedPages w = Normal (JSArray fixes) ->
        forallb present fixes = true ->
        List.filter qualifies fixes = [] ->
        checkPublishedFixes w = (Resolved JSUndefined, initial)).
Proof.
  split.
  - intros v. unfold checkPublishedFixes. rewrite checkPublishedFixes_try_closed.
    destruct (routing w) as [rso|]; [|done].
    destruct (getFixedPages w) as [[| | | | |fixes|]|] eqn:Hfixes; try done.
    rewrite (fetched_fixes_array _ _ Hfixes).
    destruct (forallb present fixes); [|done].
    destruct (List.filter qualifies fixes) as [|x deployed] eqn:Hdeployed.
    { intros [= <-]. by left. }
    destruct (for_of_check_fix_shape w rso (map extract (x :: deployed)) initial)
      as (c & lives & previews & checks & -> & Hl & Hp & _).
    destruct c as [[]|]; [|done].
    destruct (fst (report_results _)) as [v'|] eqn:Hv; [|done].
    apply report_results_value in Hv. rewrite results_closed in Hv.
    + intros [= <-]. right. split; [done|]. by injection Hv as <-.
    + by apply (contributes_present "live" live_evidence) in Hl.
    + by apply (contributes_present "preview" preview_evidence) in Hp.
  - intros rso fixes Hrouting Hfixes Hpresent Hnone.
    unfold checkPublishedFixes.
    by rewrite checkPublishedFixes_try_closed, Hrouting, Hfixes, Hpresent, Hnone.
Qed.

(** *** Independence of the two branches *)

Lemma published_printable (lastModified executedAt : JSValue) (s : string) :
  is_primitive lastModified = true ->
  ToString executedAt = Normal s ->
  published lastModified executedAt
  = Normal (ToBoolean lastModified && isAfter lastModified executedAt).
Proof.
  intros Hlm Hea. unfold published.
  destruct (ToBoolean lastModified); [|done]. simpl.
  destruct (ToString_primitive lastModified) as [s' Hs']; [done|].
  by eapply isDateAfter_isAfter.
Qed.

Lemma log_fix_printable (documentPath executedAt : JSValue) (texts : list string) :
  sequence (map ToString [documentPath; executedAt]) = Normal texts ->
  exists s, ToString executedAt = Normal s.
Proof.
  simpl. destruct (ToString documentPath); [|done]. simpl.
  destruct (ToString executedAt); [eauto|done].
Qed.

Lemma live_evidence_branch (dp ea s1 s2 : JSValue) :
  prop s1 "live" = prop s2 "live" -> live_evidence dp ea s1 = live_evidence dp ea s2.
Proof. intros H. unfold live_evidence, lastModified_of, url_of. by rewrite H. Qed.

Lemma preview_evidence_branch (dp ea s1 s2 : JSValue) :
  prop s1 "preview" = prop s2 "preview" ->
  preview_evidence dp ea s1 = preview_evidence dp ea s2.
Proof. intros H. unfold preview_evidence, lastModified_of, url_of. by rewrite H. Qed.

Lemma statusChecks_extend (st : State) (live preview checks : list JSValue) :
  statusChecks (extend st live preview checks) = statusChecks st ++ checks.
Proof. done. Qed.

(** One iteration in two comparable worlds, from states with the same
    status checks: the iterations complete alike, and what they add to a
    list is the same when the statuses agree on that branch. *)
Lemma check_fix_comparable (w1 w2 : World) (rso fix_ : JSValue) (st1 st2 : State) :
  comparable w1 w2 ->
  statusChecks st1 = statusChecks st2 ->
  exists c live1 live2 preview1 preview2 checks,
    check_fix w1 rso fix_ st1 = (c, extend st1 live1 preview1 checks)
    /\ check_fix w2 rso fix_ st2 = (c, extend st2 live2 preview2 checks)
    /\ (same_branch "live" w1 w2 -> live1 = live2)
    /\ (same_branch "preview" w1 w2 -> preview1 = preview2).
Proof.
  intros Hcomp Hchecks. rewrite !check_fix_closed, <- Hchecks.
  destruct (present fix_);
    [|exists Throw, [], [], [], [], []; by rewrite !extend_nil].
  cbv zeta. destruct (sequence _) as [texts|] eqn:Hlog;
    [|exists Throw, [], [], [], [], []; by rewrite !extend_nil].
  apply log_fix_printable in Hlog as [s Hs].
  unfold fetched_status.
  destruct (cleanPath _) as [path|]; [|by eexists Throw, [], [], [], [], _].
  simpl. destruct (adminEndpointUrl rso path) as [url|];
    [|by eexists Throw, [], [], [], [], _].
  simpl.
  destruct (Hcomp (length (statusChecks st1)) url) as ([Hl1 Hp1] & [Hl2 Hp2] & Htruthy).
  rewrite <- Htruthy.
  destruct (ToBoolean (status_of (statusResponse w1 _ url)));
    [|by eexists (Normal tt), [], [], [], [], _].
  rewrite !(published_printable _ _ s) by done.
  eexists (Normal tt), _, _, _, _, _. split; [done|]. split; [done|]. split.
  - intros Hsame. unfold lastModified_of. rewrite (Hsame _ url).
    by rewrite (live_evidence_branch _ _ _ _ (Hsame _ url)).
  - intros Hsame. unfold lastModified_of. rewrite (Hsame _ url).
    by rewrite (preview_evidence_branch _ _ _ _ (Hsame _ url)).
Qed.

Lemma for_of_comparable (w1 w2 : World) (rso : JSValue) (fixes : list JSValue)
    (st1 st2 : State) :
  comparable w1 w2 ->
  statusChecks st1 = statusChecks st2 ->
  exists c live1 live2 preview1 preview2 checks,
    for_of fixes (check_fix w1 rso) st1 = (c, extend st1 live1 preview1 checks)
    /\ for_of fixes (check_fix w2 rso) st2 = (c, extend st2 live2 preview2 checks)
    /\ (same_branch "live" w1 w2 -> live1 = live2)
    /\ (same_branch "preview" w1 w2 -> preview1 = preview2).
Proof.
  intros Hcomp. revert st1 st2.
  induction fixes as [|fix_ fixes IH]; intros st1 st2 Hchecks.
  { exists (Normal tt), [], [], [], [], []. by rewrite !extend_nil. }
  rewrite !for_of_cons.
  destruct (check_fix_comparable w1 w2 rso fix_ st1 st2 Hcomp Hchecks)
    as (c & l1 & l2 & p1 & p2 & cs & -> & -> & Hl & Hp).
  destruct c as [[]|]; [|by exists Throw, l1, l2, p1, p2, cs].
  destruct (IH (extend st1 l1 p1 cs) (extend st2 l2 p2 cs))
    as (c & l1' & l2' & p1' & p2' & cs' & -> & -> & Hl' & Hp').
  { by rewrite !statusChecks_extend, Hchecks. }
  exists c, (l1 ++ l1'), (l2 ++ l2'), (p1 ++ p1'), (p2 ++ p2'), (cs ++ cs').
  rewrite !extend_extend. repeat split; try done.
  - intros H. by rewrite Hl, Hl'.
  - intros H. by rewrite Hp, Hp'.
Qed.

Lemma routing_same_site (w1 w2 : World) :
  siteDetailsResponse w1 = siteDetailsResponse w2 -> routing w1 = routing w2.
Proof. unfold routing, getSiteDetails. by intros ->. Qed.

(** C10: over the same fix records and with well-typed statuses that are
    available alike, the live-evidence list of a run does not depend on
    the preview branches of the statuses (two runs whose statuses have
    the same live branches build the same live list), and the
    preview-evidence list does not depend on the live branches. *)
Theorem live_and_preview_independent (w1 w2 : World) :
  siteDetailsResponse w1 = siteDetailsResponse w2 ->
  fixesResponse w1 = fixesResponse w2 ->
  comparable w1 w2 ->
  (same_branch "live" w1 w2 ->
   livePublishedPages (snd (checkPublishedFixes w1))
   = livePublishedPages (snd (checkPublishedFixes w2)))
  /\ (same_branch "preview" w1 w2 ->
      previewPublishedPages (snd (checkPublishedFixes w1))
      = previewPublishedPages (snd (checkPublishedFixes w2))).
Proof.
  intros Hsite Hfixes Hcomp.
  unfold checkPublishedFixes. rewrite !checkPublishedFixes_try_closed.
  rewrite (routing_same_site w1 w2 Hsite). unfold getFixedPages. rewrite Hfixes.
  destruct (routing w2) as [rso|]; [|done].
  destruct (fetch_json (fixesResponse w2)) as [[| | | | |fixes|]|]; try done.
  destruct (forallb present fixes); [|done].
  destruct (List.filter qualifies fixes) as [|x deployed]; [done|].
  destruct (for_of_comparable w1 w2 rso (map extract (x :: deployed)) initial initial
              Hcomp eq_refl)
    as (c & l1 & l2 & p1 & p2 & cs & -> & -> & Hl & Hp).
  destruct c as [[]|]; simpl.
  - destruct (fst (report_results _)), (fst (report_results _)); simpl;
      split; intros H; by rewrite ?Hl, ?Hp.
  - split; intros H; by rewrite ?Hl, ?Hp.
Qed.

End Verification.

(** ** The script on the sample data *)

Module Run.
Import Sample Engine.

(** The end-to-end scenario: of three deployed fixes with document paths,
    the first is published live, the second on preview only, the third
    not at all; the records in between do not qualify. *)
Example scenario_result :
  fst (checkPublishedFixes world)
  = Resolved
      (structured_result
         [live_evidence (JSString "/resources/hr-glossary/form-940")
            (JSString "2025-07-11T15:28:23.948Z") status1]
         [preview_evidence (JSString "/resources/hr-glossary/form-941")
            (JSString "2025-07-11T15:28:23.948Z") status2]).
Proof. vm_compute. reflexivity. Qed.

Example scenario_pages :
  prop (structured_result (livePublishedPages (snd (checkPublishedFixes world)))
          (previewPublishedPages (snd (checkPublishedFixes world)))) "livePublishedPages"
  = JSArray [JSString "/resources/hr-glossary/form-940"].
Proof. vm_compute. reflexivity. Qed.

Example scenario_checks :
  statusChecks (snd (checkPublishedFixes world))
  = [JSString "/resources/hr-glossary/form-940";
     JSString "/resources/hr-glossary/form-941";
     JSString "/resources/hr-glossary/w-2"].
Proof. vm_compute. reflexivity. Qed.

(** The timestamps of the specification: published at 16:30 after a fix
    at 15:28:23.948 is evidence, published at 10:00 is not. *)
Example after_1630 :
  isDateAfter (JSString "2025-07-11T16:30:00.000Z") (JSString "2025-07-11T15:28:23.948Z")
  = Normal true.
Proof. reflexivity. Qed.

Example after_1000 :
  isDateAfter (JSString "2025-07-11T10:00:00.000Z") (JSString "2025-07-11T15:28:23.948Z")
  = Normal false.
Proof. reflexivity. Qed.

(** Instants are compared, not texts: 16:30 at +02:00 is before 15:28 UTC. *)
Example after_offset :
  isDateAfter (JSString "2025-07-11T16:30:00.000+02:00")
    (JSString "2025-07-11T15:28:23.948Z")
  = Normal false.
Proof. reflexivity. Qed.

(** An outage of the admin service for the second document only. *)
Example outage_result :
  checkPublishedFixes world_outage
  = (Resolved
       (structured_result
          [live_evidence (JSString "/resources/hr-glossary/form-940")
             (JSString "2025-07-11T15:28:23.948Z") status1] []),
     {| livePublishedPages :=
          [live_evidence (JSString "/resources/hr-glossary/form-940")
             (JSString "2025-07-11T15:28:23.948Z") status1];
        previewPublishedPages := [];
        statusChecks := [JSString "/resources/hr-glossary/form-940";
                         JSString "/resources/hr-glossary/form-941";
                         JSString "/resources/hr-glossary/w-2"] |}).
Proof. vm_compute. reflexivity. Qed.

(** A [null] among the fetched records ends the process before any
    status check. *)
Example null_record_exits :
  checkPublishedFixes
    {| siteDetailsResponse := ok siteDetails;
       fixesResponse := ok (JSArray [fix1; JSNull]);
       statusResponse := admin |}
  = (Exited 1, initial).
Proof. vm_compute. reflexivity. Qed.

(** C5, counterexample: the stage applied to its own output loses the
    one qualifying record. *)
Lemma qualifying_stage_not_idempotent :
  (deployedFixesOf [fix1] ≫= deployedFixesOf) <> deployedFixesOf [fix1].
Proof. vm_compute. intros H. discriminate H. Qed.

(** C5, witness: on the qualifying records of the scenario the stage
    returns what it returns on all its records. *)
Lemma qualifying_filters_witness :
  deployedFixesOf (List.filter qualifies [fix1; fix_pending; fix2; fix_pathless; fix3])
  = Normal [extract fix1; extract fix2; extract fix3].
Proof.
  apply (proj1 (proj2 (proj2
           (qualifying_filters_idempotent [fix1; fix_pending; fix2; fix_pathless; fix3])))).
  vm_compute. reflexivity.
Defined.

(** C9, counterexample: with no fix at all the run completes normally
    and its result is [undefined], which is no structured result. *)
Lemma no_fix_no_structured_result :
  fst (checkPublishedFixes world_empty) = Resolved JSUndefined
  /\ ~ (exists live preview : list JSValue,
          fst (checkPublishedFixes world_empty)
          = Resolved (structured_result live preview)).
Proof.
  split; [vm_compute; reflexivity|].
  intros (live & preview & H). vm_compute in H. discriminate H.
Qed.

(** C1, witness: the first fix of the scenario and its status. *)
Lemma evidence_appended_witness :
  check_fix world rso (extract fix1) initial
  = (Normal tt,
     extend initial
       [live_evidence (JSString "/resources/hr-glossary/form-940")
          (JSString "2025-07-11T15:28:23.948Z") status1]
       [] [JSString "/resources/hr-glossary/form-940"]).
Proof.
  etrans.
  - apply (evidence_appended_exactly_when_after world rso (extract fix1) status1 initial
             "/resources/hr-glossary/form-940"
             (status_url "resources/hr-glossary/form-940"));
      reflexivity.
  - vm_compute. reflexivity.
Defined.

(** C2, witness: 16:30 is after 15:28:23.948, and not the other way round. *)
Lemma isDateAfter_strict_witness :
  isDateAfter (JSString "2025-07-11T16:30:00.000Z") (JSString "2025-07-11T15:28:23.948Z")
  = Normal true
  /\ isDateAfter (JSString "2025-07-11T15:28:23.948Z") (JSString "2025-07-11T16:30:00.000Z")
     = Normal false.
Proof.
  apply (proj1 isDateAfter_strict "2025-07-11T16:30:00.000Z" "2025-07-11T15:28:23.948Z"
           1752251400000 1752247703948); reflexivity.
Defined.

(** C3, witness: a timestamp that is no date is after nothing and
    nothing is after it; a status whose live [lastModified] is no date
    gives no live entry, and the iteration completes. *)
Lemma unparseable_timestamp_witness :
  isDateAfter (JSString "yesterday") (JSString "2025-07-11T15:28:23.948Z") = Normal false
  /\ isDateAfter (JSString "2025-07-11T16:30:00.000Z") (JSString "yesterday") = Normal false
  /\ exists live preview,
       check_fix world_garbled rso (extract fix1) initial
       = (Normal tt,
          extend initial live preview [JSString "/resources/hr-glossary/form-940"])
       /\ (unparseable (prop (extract fix1) "executedAt") -> live = [] /\ preview = [])
       /\ (unparseable (lastModified_of status_garbled "live") -> live = [])
       /\ (unparseable (lastModified_of status_garbled "preview") -> preview = []).
Proof.
  split; [|split].
  - apply (proj1 unparseable_timestamp_suppresses_evidence). left. reflexivity.
  - apply (proj1 unparseable_timestamp_suppresses_evidence). right. reflexivity.
  - apply (proj2 unparseable_timestamp_suppresses_evidence world_garbled rso
             (extract fix1) status_garbled initial "/resources/hr-glossary/form-940"
             (status_url "resources/hr-glossary/form-940"));
      reflexivity.
Defined.

Example garbled_result :
  snd (check_fix world_garbled rso (extract fix1) initial)
  = {| livePublishedPages := [];
       previewPublishedPages :=
         [preview_evidence (JSString "/resources/hr-glossary/form-940")
            (JSString "2025-07-11T15:28:23.948Z") status_garbled];
       statusChecks := [JSString "/resources/hr-glossary/form-940"] |}.
Proof. vm_compute. reflexivity. Qed.

(** C6, witness: the outage for the second document. *)
Lemma status_failure_witness :
  getHelixStatus world_outage (JSString "/resources/hr-glossary/form-941") rso
    after_first_check
  = (Normal JSNull,
     extend after_first_check [] [] [JSString "/resources/hr-glossary/form-941"])
  /\ check_fix world_outage rso (extract fix2) after_first_check
     = (Normal tt,
        extend after_first_check [] [] [JSString "/resources/hr-glossary/form-941"])
  /\ for_of [extract fix2; extract fix3] (check_fix world_outage rso) after_first_check
     = for_of [extract fix3] (check_fix world_outage rso)
         (extend after_first_check [] [] [JSString "/resources/hr-glossary/form-941"]).
Proof.
  apply (status_failure_skips_document world_outage rso (extract fix2) [extract fix3]
           after_first_check "/resources/hr-glossary/form-941"
           (status_url "resources/hr-glossary/form-941"));
    reflexivity.
Defined.

(** C9, witness: the scenario has qualifying fixes and returns the
    structured result over its two detail lists; the run without fixes
    returns [undefined]. *)
Lemma structured_result_witness :
  (let st := snd (checkPublishedFixes world) in
   let v := structured_result
              [live_evidence (JSString "/resources/hr-glossary/form-940")
                 (JSString "2025-07-11T15:28:23.948Z") status1]
              [preview_evidence (JSString "/resources/hr-glossary/form-941")
                 (JSString "2025-07-11T15:28:23.948Z") status2] in
   (List.filter qualifies (fetched_fixes world) = [] /\ v = JSUndefined /\ st = initial)
   \/ (List.filter qualifies (fetched_fixes world) <> []
       /\ v = structured_result (livePublishedPages st) (previewPublishedPages st)))
  /\ checkPublishedFixes world_empty = (Resolved JSUndefined, initial).
Proof.
  split.
  - exact (proj1 (structured_result_unless_no_fix world) _ scenario_result).
  - apply (proj2 (structured_result_unless_no_fix world_empty) rso []); reflexivity.
Defined.

Lemma comparable_previewed : comparable world world_previewed.
Proof.
  intros n url. unfold world, world_previewed, admin. cbn [statusResponse].
  destruct (String.eqb url (status_url "resources/hr-glossary/form-940")).
  { repeat split; reflexivity. }
  destruct (String.eqb url (status_url "resources/hr-glossary/form-941")).
  { repeat split; reflexivity. }
  destruct (String.eqb url (status_url "resources/hr-glossary/w-2"));
    repeat split; reflexivity.
Defined.

Lemma same_live_previewed : same_branch "live" world world_previewed.
Proof.
  intros n url. unfold world, world_previewed, admin. cbn [statusResponse].
  destruct (String.eqb url (status_url "resources/hr-glossary/form-940")); reflexivity.
Defined.

Lemma comparable_republished : comparable world world_republished.
Proof.
  intros n url. unfold world, world_republished, admin. cbn [statusResponse].
  destruct (String.eqb url (status_url "resources/hr-glossary/form-940")).
  { repeat split; reflexivity. }
  destruct (String.eqb url (status_url "resources/hr-glossary/form-941")).
  { repeat split; reflexivity. }
  destruct (String.eqb url (status_url "resources/hr-glossary/w-2"));
    repeat split; reflexivity.
Defined.

Lemma same_preview_republished : same_branch "preview" world world_republished.
Proof.
  intros n url. unfold world, world_republished, admin. cbn [statusResponse].
  destruct (String.eqb url (status_url "resources/hr-glossary/form-940")); reflexivity.
Defined.

(** C10, witness: previewing the first document again changes the
    preview list of the scenario and leaves its live list as it was;
    publishing it live again changes the live list and leaves the preview
    list as it was. *)
Lemma live_independent_witness :
  (livePublishedPages (snd (checkPublishedFixes world))
   = livePublishedPages (snd (checkPublishedFixes world_previewed))
   /\ previewPublishedPages (snd (checkPublishedFixes world))
      <> previewPublishedPages (snd (checkPublishedFixes world_previewed)))
  /\ (previewPublishedPages (snd (checkPublishedFixes world))
      = previewPublishedPages (snd (checkPublishedFixes world_republished))
      /\ livePublishedPages (snd (checkPublishedFixes world))
         <> livePublishedPages (snd (checkPublishedFixes world_republished))).
Proof.
  split; split.
  - apply (proj1 (live_and_preview_independent world world_previewed
                    eq_refl eq_refl comparable_previewed)), same_live_previewed.
  - vm_compute. intros H. discriminate H.
  - apply (proj2 (live_and_preview_independent world world_republished
                    eq_refl eq_refl comparable_republished)), same_preview_republished.
  - vm_compute. intros H. discriminate H.
Defined.

End Run.

(** ** More of the script

    The parts of the script the properties above do not reach: the path
    of a status request, the comparator as an order, step 3 as a whole,
    the fatal errors, the edge cases of [executedAt] and of the status
    body, whole runs on data of the data model, and the process around
    [checkPublishedFixes]. *)

Import Main Whole.

Section Coverage.
Context {rt : Runtime}.

(** *** The path of a status request *)




(** *** The date comparator as an order *)

(** X2: on timestamp strings [isDateAfter] is a strict order: it is
    transitive, and of two timestamps that parse to instants exactly one
    is after the other unless the instants are equal, whatever the texts
    are. *)
Theorem isDateAfter_order :
  (forall a b c : string,
     isDateAfter (JSString a) (JSString b) = Normal true ->
     isDateAfter (JSString b) (JSString c) = Normal true ->
     isDateAfter (JSString a) (JSString c) = Normal true)
  /\ (forall (a b : string) (ta tb : Z),
        instant a = Some ta -> instant b = Some tb ->
        (tb < ta /\ isDateAfter (JSString a) (JSString b) = Normal true
                 /\ isDateAfter (JSString b) (JSString a) = Normal false)
        \/ (ta < tb /\ isDateAfter (JSString a) (JSString b) = Normal false
                    /\ isDateAfter (JSString b) (JSString a) = Normal true)
        \/ (ta = tb /\ isDateAfter (JSString a) (JSString b) = Normal false
                    /\ isDateAfter (JSString b) (JSString a) = Normal false)).
Proof.
  split.
  - intros a b c. rewrite !isDateAfter_strings.
    destruct (instant a) as [ta|], (instant b) as [tb|], (instant c) as [tc|]; try done.
    intros [= Hab%Z.ltb_lt] [= Hbc%Z.ltb_lt]. f_equal. apply Z.ltb_lt. lia.
  - intros a b ta tb Ha Hb. rewrite !isDateAfter_strings, Ha, Hb.
    destruct (Z.lt_trichotomy ta tb) as [H | [H | H]].
    + right. left. split; [done|]. split; f_equal; [apply Z.ltb_ge; lia | by apply Z.ltb_lt].
    + right. right. split; [done|]. subst. by rewrite Z.ltb_irrefl.
    + left. split; [done|]. split; f_equal; [by apply Z.ltb_lt | apply Z.ltb_ge; lia].
Qed.

(** *** Step 3 *)

Lemma forallb_present_false (fixes : list JSValue) :
  forallb present fixes = false <-> exists x, x ∈ fixes /\ present x = false.
Proof.
  induction fixes as [|x fixes IH]; simpl.
  - split; [done|]. intros (x & Hx & _). by apply elem_of_nil in Hx.
  - rewrite andb_false_iff, IH. split.
    + intros [Hx | (y & Hy & Hp)]; [exists x | exists y]; split; try done; by constructor.
    + intros (y & Hy & Hp). apply elem_of_cons in Hy as [-> | Hy]; [by left|].
      right. by exists y.
Qed.

Lemma List_filter_length (q : JSValue -> bool) (xs : list JSValue) :
  (length (List.filter q xs) <= length xs)%nat.
Proof. induction xs as [|x xs IH]; simpl; [done|]. destruct (q x); simpl; lia. Qed.

(** X3: step 3 fails exactly when a fetched element is [null] (its
    [status] cannot be read); otherwise it returns, in the fetched order,
    one record [{id, executedAt, documentPath}] per fetched record whose
    status is DEPLOYED and whose document path is truthy, so never more
    records than were fetched, each with a truthy document path; fetched
    elements that are no objects are dropped without an error. *)
Theorem deployedFixesOf_characterized (fixes : list JSValue) :
  (deployedFixesOf fixes = Throw <-> exists x, x ∈ fixes /\ present x = false)
  /\ (forall deployedFixes,
        deployedFixesOf fixes = Normal deployedFixes ->
        deployedFixes = map extract (List.filter qualifies fixes)
        /\ (length deployedFixes <= length fixes)%nat
        /\ Forall (fun fix_ => ToBoolean (prop fix_ "documentPath") = true) deployedFixes)
  /\ (forall x, is_object x = false -> qualifies x = false).
Proof.
  rewrite deployedFixesOf_closed. split; [|split].
  - destruct (forallb present fixes) eqn:Hall.
    + split; [done|]. intros H. apply forallb_present_false in H. congruence.
    + split; [|done]. intros _. by apply forallb_present_false.
  - destruct (forallb present fixes); [|done]. intros out [= <-].
    split; [done|]. split.
    + rewrite length_map. apply List_filter_length.
    + apply Forall_forall.
      intros y (x & -> & [_ Hq]%elem_of_List_filter)%list_elem_of_fmap.
      rewrite prop_extract_documentPath. by destruct (qualifies_spec _ Hq) as (_ & ? & _).
  - intros x Hx. by destruct x.
Qed.

(** *** Fatal errors *)

Lemma fetch_json_failed (outcome : FetchOutcome) :
  status_fetch_failed outcome = true -> fetch_json outcome = Throw.
Proof. by destruct outcome as [|[] []]. Qed.

Lemma routing_falsy (w : World) (site : JSValue) :
  siteDetailsResponse w = HttpResponse true (Some site) ->
  ToBoolean (prop (prop site "hlxConfig") "rso") = false ->
  routing w = Throw.
Proof.
  intros Hsite Hrso. unfold routing, getSiteDetails. rewrite Hsite. simpl.
  destruct (present site) eqn:Hp.
  - rewrite get_present by done. simpl. rewrite get_opt_prop. simpl. by rewrite Hrso.
  - by rewrite get_absent.
Qed.

(** X4: steps 1 and 2 are fatal: when the site details or the fix list
    cannot be fetched (network error, response that is not 2xx, body that
    is not JSON), when the site details have no truthy [hlxConfig.rso],
    or when the fix list is no array, the process ends with status 1 and
    no status check was made. *)
Theorem fetch_of_site_or_fixes_is_fatal (w : World) :
  status_fetch_failed (siteDetailsResponse w) = true
  \/ (exists site, siteDetailsResponse w = HttpResponse true (Some site)
                   /\ ToBoolean (prop (prop site "hlxConfig") "rso") = false)
  \/ status_fetch_failed (fixesResponse w) = true
  \/ (exists fixes, fixesResponse w = HttpResponse true (Some fixes)
                    /\ is_array fixes = false) ->
  checkPublishedFixes w = (Exited 1, initial).
Proof.
  intros H. unfold checkPublishedFixes. rewrite checkPublishedFixes_try_closed.
  destruct H as [H | [(site & Hsite & Hrso) | [H | (fixes & Hfixes & Harray)]]].
  - unfold routing, getSiteDetails. by rewrite fetch_json_failed.
  - by rewrite (routing_falsy w site).
  - destruct (routing w); [|done]. unfold getFixedPages. by rewrite fetch_json_failed.
  - destruct (routing w); [|done]. unfold getFixedPages. rewrite Hfixes. simpl.
    by destruct fixes.
Qed.

Lemma for_of_throws {A : Type} (xs : list A) (body : A -> M unit) (x : A) (st : State) :
  x ∈ xs -> (forall st', fst (body x st') = Throw) -> fst (for_of xs body st) = Throw.
Proof.
  intros Hin Hx. revert st. induction Hin as [x xs|x y xs Hin IH]; intros st.
  - rewrite for_of_cons. specialize (Hx st). by destruct (body x st) as [[[]|] st'].
  - rewrite for_of_cons. destruct (body y st) as [[[]|] st']; [by apply IH|done].
Qed.

Lemma check_fix_not_string (w : World) (rso record : JSValue) (st : State) :
  is_string (documentPath_of record) = false ->
  fst (check_fix w rso (extract record) st) = Throw.
Proof.
  intros Hdp. rewrite check_fix_closed. cbn [present extract obj].
  rewrite prop_extract_documentPath. cbv zeta.
  destruct (sequence _); [|done].
  unfold fetched_status.
  by destruct (documentPath_of record).
Qed.

(** X5: a document path that is no string is fatal: when a qualifying
    fetched record has a document path that is truthy but no string (a
    number, an array, an object), the run ends with status 1 and returns
    nothing, whatever evidence was found for the records before it. *)
Theorem non_string_documentPath_is_fatal (w : World) (record : JSValue) :
  record ∈ fetched_fixes w ->
  qualifies record = true ->
  is_string (documentPath_of record) = false ->
  fst (checkPublishedFixes w) = Exited 1.
Proof.
  intros Hin Hq Hdp. unfold checkPublishedFixes. rewrite checkPublishedFixes_try_closed.
  destruct (routing w) as [rso|]; [|done].
  unfold fetched_fixes in Hin.
  destruct (getFixedPages w) as [[| | | | |fixes|]|]; try done.
  destruct (forallb present fixes); [|done].
  assert (Hrecord : record ∈ List.filter qualifies fixes) by by apply elem_of_List_filter.
  destruct (List.filter qualifies fixes) as [|x deployed] eqn:Hdeployed.
  { by apply elem_of_nil in Hrecord. }
  assert (Hthrow : fst (for_of (map extract (x :: deployed)) (check_fix w rso) initial)
                   = Throw).
  { apply (for_of_throws _ _ (extract record)).
    - change (map extract (x :: deployed)) with (extract <$> (x :: deployed)).
      by apply list_elem_of_fmap_2.
    - intros st'. by apply check_fix_not_string. }
  by destruct (for_of _ _ _) as [[[]|] st].
Qed.

(** *** Edge cases of [executedAt] and of the status *)

Lemma isDateAfter_undefined (lastModified : JSValue) :
  isDateAfter lastModified JSUndefined <> Normal true.
Proof.
  unfold isDateAfter, parseDate. destruct (Date_new lastModified) as [[[t|]]|]; done.
Qed.

(** X6: a fix without [executedAt] never yields evidence: whatever the
    status of its document is, the iteration adds no entry to the live
    list and none to the preview list. *)
Theorem missing_executedAt_never_evidence
    (w : World) (rso fix_ : JSValue) (st : State) :
  prop fix_ "executedAt" = JSUndefined ->
  livePublishedPages (snd (check_fix w rso fix_ st)) = livePublishedPages st
  /\ previewPublishedPages (snd (check_fix w rso fix_ st)) = previewPublishedPages st.
Proof.
  intros Hea.
  destruct (check_fix_shape w rso fix_ st)
    as (c & live & preview & checks & -> & Hl & Hp & _).
  unfold contributes in Hl, Hp. rewrite Hea in Hl, Hp.
  destruct Hl as [-> | (s & _ & Hl)]; [|by apply isDateAfter_undefined in Hl].
  destruct Hp as [-> | (s & _ & Hp)]; [|by apply isDateAfter_undefined in Hp].
  simpl. by rewrite !app_nil_r.
Qed.

(** X7: an [executedAt] that is [null] stands for the epoch:
    [new Date(null)] is 1970-01-01T00:00:00Z, so on a fix whose
    [executedAt] is [null] a branch yields evidence exactly when its
    [lastModified] is truthy and its instant is after the epoch. *)
Theorem null_executedAt_is_epoch
    (w : World) (rso fix_ status : JSValue) (st : State) (dp url : string) :
  prop fix_ "documentPath" = JSString dp ->
  prop fix_ "executedAt" = JSNull ->
  adminEndpointUrl rso (strip_leading_slashes dp) = Normal url ->
  statusResponse w (length (statusChecks st)) url = HttpResponse true (Some status) ->
  ToBoolean status = true ->
  timestamp_or_absent (lastModified_of status "live") = true ->
  timestamp_or_absent (lastModified_of status "preview") = true ->
  check_fix w rso fix_ st
  = (Normal tt,
     extend st
       (if ToBoolean (lastModified_of status "live")
           && after_epoch (lastModified_of status "live")
        then [live_evidence (JSString dp) JSNull status] else [])
       (if ToBoolean (lastModified_of status "preview")
           && after_epoch (lastModified_of status "preview")
        then [preview_evidence (JSString dp) JSNull status] else [])
       [JSString dp]).
Proof.
  intros Hdp Hea Hurl Hresp Hstatus Hlive Hpreview.
  rewrite (check_fix_typed w rso fix_ status st dp url); try done;
    rewrite ?Hea; auto using timestamp_primitive.
  assert (H : forall lm, timestamp_or_absent lm = true ->
                ToBoolean lm && isAfter lm JSNull = ToBoolean lm && after_epoch lm).
  { intros lm Hlm. by destruct lm. }
  by rewrite !H.
Qed.

(** X8: a status body that is no object yields no evidence and no
    error: when the admin service answers the request for the document
    of a qualifying fix with JSON that is no object ([null], a boolean, a
    number, a string, an array), the iteration adds no entry and
    completes normally. *)
Theorem status_not_an_object_no_evidence
    (w : World) (rso fix_ status : JSValue) (st : State) (dp url : string) :
  prop fix_ "documentPath" = JSString dp ->
  is_primitive (prop fix_ "executedAt") = true ->
  adminEndpointUrl rso (strip_leading_slashes dp) = Normal url ->
  statusResponse w (length (statusChecks st)) url = HttpResponse true (Some status) ->
  is_object status = false ->
  check_fix w rso fix_ st = (Normal tt, extend st [] [] [JSString dp]).
Proof.
  intros Hdp Hea Hurl Hresp Hobject.
  destruct (ToBoolean status) eqn:Hstatus.
  - rewrite (check_fix_typed w rso fix_ status st dp url); try done;
      by destruct status.
  - rewrite check_fix_closed, (prop_string_present _ _ _ Hdp), Hdp. cbv zeta.
    destruct (log_fix_typed dp _ Hea) as [texts ->].
    rewrite (fetched_status_ok _ _ _ _ _ _ Hurl Hresp). simpl status_of.
    by rewrite Hstatus.
Qed.

(** *** Evidence and status checks *)

Lemma check_fix_checked (w : World) (rso fix_ : JSValue) (st : State) :
  exists c live preview checks,
    check_fix w rso fix_ st = (c, extend st live preview checks)
    /\ paths live `sublist_of` checks
    /\ paths preview `sublist_of` checks.
Proof.
  rewrite check_fix_closed.
  destruct (present fix_);
    [|exists Throw, [], [], []; by rewrite extend_nil].
  cbv zeta. destruct (sequence _) as [texts|];
    [|exists Throw, [], [], []; by rewrite extend_nil].
  set (dp := prop fix_ "documentPath"). set (ea := prop fix_ "executedAt").
  destruct (fetched_status _ _ _ _) as [status|];
    [|exists Throw, [], [], [dp]; repeat split; apply sublist_nil_l].
  destruct (ToBoolean status);
    [|exists (Normal tt), [], [], [dp]; repeat split; apply sublist_nil_l].
  destruct (published (lastModified_of status "live") _) as [live|];
    [|exists Throw, [], [], [dp]; repeat split; apply sublist_nil_l].
  assert (Hl : paths (if live then [live_evidence dp ea status] else [])
                 `sublist_of` [dp]).
  { destruct live; [done|apply sublist_nil_l]. }
  destruct (published (lastModified_of status "preview") _) as [preview|].
  - exists (Normal tt), (if live then [live_evidence dp ea status] else []),
      (if preview then [preview_evidence dp ea status] else []), [dp].
    repeat split; [done|]. destruct preview; [done|apply sublist_nil_l].
  - exists Throw, (if live then [live_evidence dp ea status] else []), [], [dp].
    repeat split; [done|apply sublist_nil_l].
Qed.

Lemma paths_app (xs ys : list JSValue) : paths (xs ++ ys) = paths xs ++ paths ys.
Proof. unfold paths. apply map_app. Qed.

Lemma for_of_checked (w : World) (rso : JSValue) (fixes : list JSValue) (st : State) :
  paths (livePublishedPages st) `sublist_of` statusChecks st ->
  paths (previewPublishedPages st) `sublist_of` statusChecks st ->
  let st' := snd (for_of fixes (check_fix w rso) st) in
  paths (livePublishedPages st') `sublist_of` statusChecks st'
  /\ paths (previewPublishedPages st') `sublist_of` statusChecks st'.
Proof.
  revert st. induction fixes as [|fix_ fixes IH]; intros st Hl Hp; [done|].
  rewrite for_of_cons.
  destruct (check_fix_checked w rso fix_ st)
    as (c & live & preview & checks & -> & Hl' & Hp').
  assert (paths (livePublishedPages (extend st live preview checks))
            `sublist_of` statusChecks (extend st live preview checks)
          /\ paths (previewPublishedPages (extend st live preview checks))
            `sublist_of` statusChecks (extend st live preview checks)) as [H1 H2].
  { simpl. rewrite !paths_app. split; by apply sublist_app. }
  destruct c as [[]|]; [by apply IH|done].
Qed.

(** X9: evidence is reported for checked documents only: at the end of
    every run, the document paths of the live-evidence list are a
    subsequence of the document paths the status was requested for, and
    so are those of the preview-evidence list. *)
Theorem evidence_only_for_checked_documents (w : World) :
  let st := snd (checkPublishedFixes w) in
  paths (livePublishedPages st) `sublist_of` statusChecks st
  /\ paths (previewPublishedPages st) `sublist_of` statusChecks st.
Proof.
  intros st. subst st.
  destruct (final_state_cases w) as [-> | [rso ->]]; [done|].
  by apply for_of_checked.
Qed.

(** *** Whole runs on data of the data model *)

Lemma append_empty_r (s : string) : s +:+ "" = s.
Proof.
  induction s as [|c s IH]; [done|].
  change (String c (s +:+ "") = String c s). by f_equal.
Qed.

Lemma adminEndpointUrl_typed (rso : JSValue) (path : string) :
  typed_routing rso ->
  exists owner site ref,
    ToString (prop rso "owner") = Normal owner
    /\ ToString (prop rso "site") = Normal site
    /\ ToString (prop rso "ref") = Normal ref
    /\ adminEndpointUrl rso path
       = Normal ("https://admin.hlx.page/status/" +:+ owner +:+ "/" +:+ site +:+ "/"
                 +:+ ref +:+ "/" +:+ path).
Proof.
  intros (Hrso & Ho & Hs & Hr).
  destruct (ToString_primitive _ Ho) as [owner Howner].
  destruct (ToString_primitive _ Hs) as [site Hsite].
  destruct (ToString_primitive _ Hr) as [ref Href].
  exists owner, site, ref. repeat split; try done.
  unfold adminEndpointUrl. rewrite !get_truthy by done. simpl.
  rewrite Howner, Hsite, Href. simpl. by rewrite append_empty_r.
Qed.

Lemma routing_typed (w : World) (site : JSValue) :
  siteDetailsResponse w = HttpResponse true (Some site) ->
  typed_routing (prop (prop site "hlxConfig") "rso") ->
  routing w = Normal (prop (prop site "hlxConfig") "rso").
Proof.
  intros Hsite (Hrso & Ho & Hs & Hr). unfold routing, getSiteDetails. rewrite Hsite. simpl.
  assert (present site = true) as Hp.
  { apply (truthy_prop_present (prop site "hlxConfig") "rso") in Hrso. by destruct site. }
  rewrite get_present by done. simpl. rewrite get_opt_prop. simpl. rewrite Hrso.
  destruct (ToString_primitive _ Ho) as [owner ->].
  destruct (ToString_primitive _ Hs) as [site' ->].
  by destruct (ToString_primitive _ Hr) as [ref ->].
Qed.

Lemma entries_from_cons (branch : string)
    (evidence : JSValue -> JSValue -> JSValue -> JSValue)
    (w : World) (rso : JSValue) (k : nat) (record : JSValue) (records : list JSValue) :
  entries_from branch evidence w rso k (record :: records)
  = entries_at branch evidence w rso k record
    ++ entries_from branch evidence w rso (S k) records.
Proof.
  unfold entries_from. rewrite imap_cons. cbn [concat].
  rewrite Nat.add_0_r. f_equal. f_equal. apply imap_ext.
  intros i x _. simpl. f_equal. lia.
Qed.

(** One iteration on a record of the data model, in terms of the
    entries of its status check. *)
Lemma check_fix_entries (w : World) (rso record : JSValue) (st : State) :
  typed_routing rso -> typed_record record -> typed_statuses w ->
  check_fix w rso (extract record) st
  = (Normal tt,
     extend st
       (entries_at "live" live_evidence w rso (length (statusChecks st)) record)
       (entries_at "preview" preview_evidence w rso (length (statusChecks st)) record)
       [documentPath_of record]).
Proof.
  intros Hrso [Hdp Hea] Hstatuses.
  destruct (documentPath_of record) as [| | | |dp| |] eqn:Hpath; try done.
  destruct (adminEndpointUrl_typed rso (strip_leading_slashes dp) Hrso)
    as (o & s & r & _ & _ & _ & Hurl).
  set (url := "https://admin.hlx.page/status/" +:+ o +:+ "/" +:+ s +:+ "/" +:+ r +:+ "/"
              +:+ strip_leading_slashes dp) in *.
  destruct (Hstatuses (length (statusChecks st)) url) as (Hl & Hp & _).
  unfold entries_at. rewrite Hpath.
  rewrite (fetched_status_ok w rso dp url _ _ Hurl eq_refl).
  rewrite check_fix_closed.
  change (present (extract record)) with true.
  change (prop (extract record) "executedAt") with (prop record "executedAt").
  rewrite prop_extract_documentPath, Hpath. cbv zeta iota.
  destruct (log_fix_typed dp _ Hea) as [texts ->].
  rewrite (fetched_status_ok w rso dp url _ _ Hurl eq_refl).
  destruct (ToBoolean (status_of (statusResponse w (length (statusChecks st)) url)));
    [|done].
  by rewrite !published_typed.
Qed.

Lemma for_of_entries (w : World) (rso : JSValue) (records : list JSValue) (st : State) :
  typed_routing rso -> Forall typed_record records -> typed_statuses w ->
  for_of (map extract records) (check_fix w rso) st
  = (Normal tt,
     extend st
       (entries_from "live" live_evidence w rso (length (statusChecks st)) records)
       (entries_from "preview" preview_evidence w rso (length (statusChecks st)) records)
       (map documentPath_of records)).
Proof.
  intros Hrso Hrecords Hstatuses. revert st.
  induction Hrecords as [|record records Hrecord _ IH]; intros st.
  { by rewrite extend_nil. }
  cbn [map]. rewrite for_of_cons, check_fix_entries by done.
  rewrite IH, extend_extend, !entries_from_cons.
  rewrite statusChecks_extend, length_app. cbn [length].
  by rewrite Nat.add_1_r.
Qed.

Lemma entries_at_printable (w : World) (rso : JSValue) (n : nat) (record : JSValue) :
  typed_record record -> typed_statuses w ->
  Forall (printable_entry "liveLastModified" "liveUrl")
    (entries_at "live" live_evidence w rso n record)
  /\ Forall (printable_entry "previewLastModified" "previewUrl")
       (entries_at "preview" preview_evidence w rso n record).
Proof.
  intros [Hdp Hea] Hstatuses. unfold entries_at, fetched_status.
  destruct (cleanPath _) as [path|]; [|done]. simpl.
  destruct (adminEndpointUrl rso path) as [url|]; [|done]. simpl.
  destruct (Hstatuses n url) as (Hl & Hp & Hlu & Hpu).
  split.
  - destruct (_ && _); constructor; [|done]. repeat split; try done.
    by destruct (documentPath_of record).
  - destruct (_ && _); constructor; [|done]. repeat split; try done.
    by destruct (documentPath_of record).
Qed.

Lemma entries_from_printable (w : World) (rso : JSValue) (records : list JSValue) (k : nat) :
  Forall typed_record records -> typed_statuses w ->
  Forall (printable_entry "liveLastModified" "liveUrl")
    (entries_from "live" live_evidence w rso k records)
  /\ Forall (printable_entry "previewLastModified" "previewUrl")
       (entries_from "preview" preview_evidence w rso k records).
Proof.
  intros Hrecords Hstatuses. revert k.
  induction Hrecords as [|record records Hrecord _ IH]; intros k.
  { split; constructor. }
  rewrite !entries_from_cons.
  destruct (entries_at_printable w rso k record Hrecord Hstatuses) as [Hl Hp].
  destruct (IH (S k)) as [Hls Hps].
  split; by apply Forall_app.
Qed.

Lemma report_printable (lastModifiedKey urlKey : string) (pages : list JSValue) (st : State) :
  Forall (printable_entry lastModifiedKey urlKey) pages ->
  report lastModifiedKey urlKey pages st = (Normal tt, st).
Proof.
  intros H. unfold report. induction H as [|page pages (Hp & Hd & He & Hl & Hu) _ IH]; [done|].
  rewrite for_of_cons.
  destruct (ToString_primitive _ Hd) as [sd Hsd].
  destruct (ToString_primitive _ He) as [se Hse].
  destruct (ToString_primitive _ Hl) as [sl Hsl].
  destruct (ToString_primitive _ Hu) as [su Hsu].
  rewrite bind_lift, get_present by done.
  rewrite bind_M, (console_log_one _ sd) by done.
  rewrite bind_lift, get_present by done.
  rewrite bind_M, (console_log_one _ se) by done.
  rewrite bind_lift, get_present by done.
  rewrite bind_M, (console_log_one _ sl) by done.
  rewrite bind_lift, get_present by done.
  by rewrite (console_log_one _ su).
Qed.

Lemma printable_present (k1 k2 : string) (pages : list JSValue) :
  Forall (printable_entry k1 k2) pages -> Forall (fun entry => present entry = true) pages.
Proof. intros H. eapply list.Forall_impl; [exact H|]. by intros e (? & _). Qed.

(** X10: the whole run in closed form, on data of the data model.  When
    the site details carry a routing configuration with scalar fields,
    the fix list is an array without [null], the qualifying records have
    string document paths and scalar [executedAt], and the statuses have
    scalar [lastModified] and [url], then the run never ends in an error,
    whatever status requests fail: it makes one status check per
    qualifying record, in order; each evidence list holds, in that order,
    the entry of every record whose status was delivered with a truthy
    [lastModified] on that branch after the [executedAt] of the record;
    and the run resolves with the structured result over these lists
    (with [undefined] when no record qualifies). *)
Theorem run_on_typed_data (w : World) (site : JSValue) (fixes : list JSValue) :
  siteDetailsResponse w = HttpResponse true (Some site) ->
  fixesResponse w = HttpResponse true (Some (JSArray fixes)) ->
  typed_routing (prop (prop site "hlxConfig") "rso") ->
  forallb present fixes = true ->
  Forall typed_record (List.filter qualifies fixes) ->
  typed_statuses w ->
  let rso := prop (prop site "hlxConfig") "rso" in
  let records := List.filter qualifies fixes in
  let live := entries_from "live" live_evidence w rso 0 records in
  let preview := entries_from "preview" preview_evidence w rso 0 records in
  checkPublishedFixes w
  = (Resolved (match records with
               | [] => JSUndefined
               | _ => structured_result live preview
               end),
     {| livePublishedPages := live;
        previewPublishedPages := preview;
        statusChecks := map documentPath_of records |}).
Proof.
  intros Hsite Hfixes Hrso Hpresent Hrecords Hstatuses rso records live preview.
  unfold checkPublishedFixes. rewrite checkPublishedFixes_try_closed.
  rewrite (routing_typed w site) by done.
  unfold getFixedPages. rewrite Hfixes. simpl fetch_json. cbv iota.
  rewrite Hpresent. fold rso records.
  destruct records as [|x deployed] eqn:Hdeployed; [done|].
  rewrite <- Hdeployed in *.
  rewrite (for_of_entries w rso records initial) by done.
  cbn [initial statusChecks length]. fold live preview.
  destruct (entries_from_printable w rso records 0 Hrecords Hstatuses) as [Hl Hp].
  fold live in Hl. fold preview in Hp.
  unfold report_results. cbn [extend initial livePublishedPages previewPublishedPages app].
  rewrite bind_M, report_printable by done.
  rewrite bind_M, report_printable by done.
  unfold lift. rewrite results_closed by (simpl; by eapply printable_present).
  simpl. by rewrite Hdeployed.
Qed.

(** *** The process *)

Lemma credential_set_truthy (v : option string) :
  ToBoolean (env_value v) = credential_set v.
Proof. by destruct v. Qed.

(** X11: the exit status of the process.  When one of the two
    credentials is not set or is empty, the process ends with status 1
    without a status check, whatever the services would answer.  With
    both credentials set and data of the data model, the process ends
    with status 0, whether or not a fix qualifies and whatever status
    requests fail. *)
Theorem script_exit_status (env : Env) :
  (credential_set (SPACECAT_API_KEY env) && credential_set (HELIX_ADMIN_TOKEN env) = false ->
   forall w : World, script env w = (1, initial))
  /\ (credential_set (SPACECAT_API_KEY env) && credential_set (HELIX_ADMIN_TOKEN env) = true ->
      forall (w : World) (site : JSValue) (fixes : list JSValue),
        siteDetailsResponse w = HttpResponse true (Some site) ->
        fixesResponse w = HttpResponse true (Some (JSArray fixes)) ->
        typed_routing (prop (prop site "hlxConfig") "rso") ->
        forallb present fixes = true ->
        Forall typed_record (List.filter qualifies fixes) ->
        typed_statuses w ->
        fst (script env w) = 0
        /\ statusChecks (snd (script env w))
           = map documentPath_of (List.filter qualifies fixes)).
Proof.
  unfold script. rewrite !credential_set_truthy. split.
  - intros H w. destruct (credential_set (SPACECAT_API_KEY env)); [|done].
    simpl in H. by rewrite H.
  - intros [-> ->]%andb_true_iff w site fixes Hsite Hfixes Hrso Hpresent Hrecords Hstatuses.
    cbn [negb]. cbv iota.
    by rewrite (run_on_typed_data w site fixes).
Qed.

(** *** The routing configuration *)

(** X12: the fields of the routing configuration are not validated: a
    [hlxConfig.rso] that is an object passes the check of step 1 even
    without [owner], [site] and [ref] (a run without fixes then ends
    normally), and the status of a document is requested under the text
    [undefined] for each of them. *)
Theorem routing_fields_not_validated
    (w : World) (site : JSValue) (props : gmap string JSValue) :
  siteDetailsResponse w = HttpResponse true (Some site) ->
  prop (prop site "hlxConfig") "rso" = JSObject props ->
  props !! "owner" = None -> props !! "site" = None -> props !! "ref" = None ->
  (fixesResponse w = HttpResponse true (Some (JSArray [])) ->
   checkPublishedFixes w = (Resolved JSUndefined, initial))
  /\ forall path : string,
       adminEndpointUrl (JSObject props) path
       = Normal ("https://admin.hlx.page/status/undefined/undefined/undefined/" +:+ path).
Proof.
  intros Hsite Hrso Ho Hs Hr.
  assert (Htyped : typed_routing (JSObject props)).
  { repeat split; simpl; by rewrite ?Ho, ?Hs, ?Hr. }
  split.
  - intros Hfixes. unfold checkPublishedFixes. rewrite checkPublishedFixes_try_closed.
    rewrite (routing_typed w site) by (by rewrite ?Hrso).
    unfold getFixedPages. by rewrite Hfixes.
  - intros path. unfold adminEndpointUrl. simpl. rewrite Ho, Hs, Hr. simpl.
    by rewrite append_empty_r.
Qed.

(** *** The status requests a run depends on *)

Lemma check_fix_agree (w1 w2 : World) (rso fix_ : JSValue) (st : State) :
  (forall url, statusResponse w1 (length (statusChecks st)) url
               = statusResponse w2 (length (statusChecks st)) url) ->
  check_fix w1 rso fix_ st = check_fix w2 rso fix_ st.
Proof.
  intros H. rewrite !check_fix_closed. unfold fetched_status.
  destruct (present fix_); [|done]. cbv zeta.
  destruct (sequence _); [|done].
  destruct (cleanPath _) as [path|]; [|done]. simpl.
  destruct (adminEndpointUrl rso path) as [url|]; [|done]. simpl.
  by rewrite H.
Qed.

Lemma check_fix_one_check (w : World) (rso fix_ : JSValue) (st : State) :
  (length (statusChecks (snd (check_fix w rso fix_ st)))
   <= S (length (statusChecks st)))%nat
  /\ (fst (check_fix w rso fix_ st) = Normal tt ->
      length (statusChecks (snd (check_fix w rso fix_ st))) = S (length (statusChecks st))).
Proof.
  destruct (check_fix_shape w rso fix_ st)
    as (c & live & preview & checks & -> & _ & _ & Hc & Hn).
  simpl. rewrite length_app. split.
  - destruct Hc as [-> | ->]; simpl; lia.
  - intros ->. rewrite Hn by done. simpl. lia.
Qed.

Lemma for_of_agree (w1 w2 : World) (rso : JSValue) (fixes : list JSValue) (st : State) :
  agree_below (length (statusChecks st) + length fixes) w1 w2 ->
  for_of fixes (check_fix w1 rso) st = for_of fixes (check_fix w2 rso) st.
Proof.
  revert st. induction fixes as [|fix_ fixes IH]; intros st Hagree; [done|].
  rewrite !for_of_cons.
  rewrite <- (check_fix_agree w1 w2).
  2:{ intros url. apply Hagree. simpl. lia. }
  destruct (check_fix_one_check w1 rso fix_ st) as [_ Hlen].
  destruct (check_fix w1 rso fix_ st) as [[[]|] st']; [|done].
  apply IH. intros n url Hn. apply Hagree. simpl in *. rewrite Hlen in Hn by done. lia.
Qed.

(** X13: a run consults the admin service once per qualifying fix at
    most: two worlds with the same site details and fix list whose admin
    services answer alike the first requests, as many as there are
    qualifying records, give the same run, whatever they would answer to
    further requests. *)
Theorem run_depends_on_first_status_requests (w1 w2 : World) :
  siteDetailsResponse w1 = siteDetailsResponse w2 ->
  fixesResponse w1 = fixesResponse w2 ->
  agree_below (length (List.filter qualifies (fetched_fixes w1))) w1 w2 ->
  checkPublishedFixes w1 = checkPublishedFixes w2.
Proof.
  intros Hsite Hfixes Hagree.
  unfold checkPublishedFixes. rewrite !checkPublishedFixes_try_closed.
  rewrite (routing_same_site w1 w2 Hsite).
  unfold fetched_fixes, getFixedPages in *. rewrite Hfixes in *.
  destruct (routing w2) as [rso|]; [|done].
  destruct (fetch_json (fixesResponse w2)) as [[| | | | |fixes|]|]; try done.
  destruct (forallb present fixes); [|done].
  destruct (List.filter qualifies fixes) as [|x deployed]; [done|].
  rewrite (for_of_agree w1 w2); [done|].
  by rewrite length_map.
Qed.

End Coverage.

(** ** More of the script on the sample data *)

Module Cover.
Import Sample Engine Cases.

(** X1, example: however many slashes lead the document path, the
    request is the one for the path without them. *)
Example cleanPath_example :
  cleanPath (JSString "///resources/hr-glossary/form-940")
  = Normal "resources/hr-glossary/form-940".
Proof. reflexivity. Qed.

(** X2, witness: three timestamps in a row. *)
Lemma isDateAfter_order_witness :
  isDateAfter (JSString "2025-07-12T09:00:00.000Z") (JSString "2025-07-11T15:28:23.948Z")
  = Normal true.
Proof.
  apply (proj1 isDateAfter_order "2025-07-12T09:00:00.000Z" "2025-07-11T16:30:00.000Z");
    reflexivity.
Defined.

(** X3, witness: the five records of the scenario. *)
Lemma deployedFixesOf_witness :
  [extract fix1; extract fix2; extract fix3]
  = map extract (List.filter qualifies [fix1; fix_pending; fix2; fix_pathless; fix3])
  /\ (length [extract fix1; extract fix2; extract fix3]
      <= length [fix1; fix_pending; fix2; fix_pathless; fix3])%nat
  /\ Forall (fun fix_ => ToBoolean (prop fix_ "documentPath") = true)
       [extract fix1; extract fix2; extract fix3].
Proof.
  apply (proj1 (proj2 (deployedFixesOf_characterized
                         [fix1; fix_pending; fix2; fix_pathless; fix3]))).
  vm_compute. reflexivity.
Defined.

(** X4, witness: the tracking service cannot be reached. *)
Lemma fatal_fetch_witness : checkPublishedFixes world_site_down = (Exited 1, initial).
Proof. apply fetch_of_site_or_fixes_is_fatal. left. reflexivity. Defined.

(** X5, witness: the second of three deployed fixes has a list of paths
    as its document path. *)
Lemma non_string_documentPath_witness :
  fst (checkPublishedFixes world_listed) = Exited 1.
Proof.
  apply (non_string_documentPath_is_fatal world_listed fix_listed).
  - apply list_elem_of_further, list_elem_of_here.
  - reflexivity.
  - reflexivity.
Defined.

(** The evidence found for the first fix is in the state, and lost. *)
Example non_string_documentPath_state :
  paths (livePublishedPages (snd (checkPublishedFixes world_listed)))
  = [JSString "/resources/hr-glossary/form-940"].
Proof. vm_compute. reflexivity. Qed.

(** X6, witness: a fix without [executedAt] for a document that is
    published. *)
Lemma missing_executedAt_witness :
  livePublishedPages (snd (check_fix world rso (extract fix_undated) initial)) = []
  /\ previewPublishedPages (snd (check_fix world rso (extract fix_undated) initial)) = [].
Proof.
  apply (missing_executedAt_never_evidence world rso (extract fix_undated) initial).
  reflexivity.
Defined.

(** X7, witness: with [null] as [executedAt], both branches of the first
    status are evidence. *)
Lemma null_executedAt_witness :
  check_fix world rso (extract fix_null_dated) initial
  = (Normal tt,
     extend initial
       [live_evidence (JSString "/resources/hr-glossary/form-940") JSNull status1]
       [preview_evidence (JSString "/resources/hr-glossary/form-940") JSNull status1]
       [JSString "/resources/hr-glossary/form-940"]).
Proof.
  etrans.
  - apply (null_executedAt_is_epoch world rso (extract fix_null_dated) status1 initial
             "/resources/hr-glossary/form-940"
             (status_url "resources/hr-glossary/form-940"));
      reflexivity.
  - vm_compute. reflexivity.
Defined.

(** X8, witness: the admin service answers with a text. *)
Lemma status_not_an_object_witness :
  check_fix world_text rso (extract fix1) initial
  = (Normal tt, extend initial [] [] [JSString "/resources/hr-glossary/form-940"]).
Proof.
  apply (status_not_an_object_no_evidence world_text rso (extract fix1) (JSString "OK")
           initial "/resources/hr-glossary/form-940"
           (status_url "resources/hr-glossary/form-940"));
    reflexivity.
Defined.

Lemma typed_statuses_world : typed_statuses world.
Proof.
  intros n url. unfold world, admin. cbn [statusResponse].
  destruct (String.eqb url (status_url "resources/hr-glossary/form-940")).
  { repeat split; reflexivity. }
  destruct (String.eqb url (status_url "resources/hr-glossary/form-941")).
  { repeat split; reflexivity. }
  destruct (String.eqb url (status_url "resources/hr-glossary/w-2"));
    repeat split; reflexivity.
Defined.

Lemma typed_records_world :
  Forall typed_record (List.filter qualifies [fix1; fix_pending; fix2; fix_pathless; fix3]).
Proof.
  change (List.filter qualifies [fix1; fix_pending; fix2; fix_pathless; fix3])
    with [fix1; fix2; fix3].
  repeat constructor.
Defined.

Lemma typed_routing_world : typed_routing (prop (prop siteDetails "hlxConfig") "rso").
Proof. repeat split; reflexivity. Defined.

(** X10, witness: the scenario. *)
Lemma run_on_typed_data_witness :
  checkPublishedFixes world
  = (Resolved
       (structured_result
          [live_evidence (JSString "/resources/hr-glossary/form-940")
             (JSString "2025-07-11T15:28:23.948Z") status1]
          [preview_evidence (JSString "/resources/hr-glossary/form-941")
             (JSString "2025-07-11T15:28:23.948Z") status2]),
     {| livePublishedPages :=
          [live_evidence (JSString "/resources/hr-glossary/form-940")
             (JSString "2025-07-11T15:28:23.948Z") status1];
        previewPublishedPages :=
          [preview_evidence (JSString "/resources/hr-glossary/form-941")
             (JSString "2025-07-11T15:28:23.948Z") status2];
        statusChecks := [JSString "/resources/hr-glossary/form-940";
                         JSString "/resources/hr-glossary/form-941";
                         JSString "/resources/hr-glossary/w-2"] |}).
Proof.
  etrans.
  - apply (run_on_typed_data world siteDetails
             [fix1; fix_pending; fix2; fix_pathless; fix3]
             eq_refl eq_refl typed_routing_world eq_refl
             typed_records_world typed_statuses_world).
  - vm_compute. reflexivity.
Defined.

(** X11, witness: with an empty token the process ends with status 1;
    with both credentials it ends with status 0 after three status
    checks. *)
Lemma script_exit_status_witness :
  script env_empty_token world = (1, initial)
  /\ fst (script env_set world) = 0
  /\ statusChecks (snd (script env_set world))
     = map documentPath_of
         (List.filter qualifies [fix1; fix_pending; fix2; fix_pathless; fix3]).
Proof.
  split.
  - apply (proj1 (script_exit_status env_empty_token)). reflexivity.
  - apply (proj2 (script_exit_status env_set) eq_refl world siteDetails
             [fix1; fix_pending; fix2; fix_pathless; fix3]
             eq_refl eq_refl typed_routing_world eq_refl
             typed_records_world typed_statuses_world).
Defined.

(** X12, witness: an empty routing configuration. *)
Lemma routing_fields_witness :
  checkPublishedFixes world_bare = (Resolved JSUndefined, initial)
  /\ adminEndpointUrl (obj []) "resources/hr-glossary/form-940"
     = Normal "https://admin.hlx.page/status/undefined/undefined/undefined/resources/hr-glossary/form-940".
Proof.
  destruct (routing_fields_not_validated world_bare
              (obj [("hlxConfig", obj [("rso", obj [])])]) ∅
              eq_refl eq_refl eq_refl eq_refl eq_refl) as [Hrun Hurl].
  split; [by apply Hrun | apply Hurl].
Defined.

Lemma agree_below_later : agree_below 3 world world_later.
Proof.
  intros n url Hn. unfold world, world_later. cbn [statusResponse].
  destruct (3 <=? n)%nat eqn:Hle; [|reflexivity].
  apply Nat.leb_le in Hle. lia.
Defined.

(** X13, witness: an outage from the fourth request on goes unnoticed
    in the scenario, which has three qualifying fixes. *)
Lemma run_depends_witness : checkPublishedFixes world = checkPublishedFixes world_later.
Proof.
  apply run_depends_on_first_status_requests; [reflexivity|reflexivity|].
  apply agree_below_later.
Defined.

End Cover.
